(** * The compact ML307 board: bring-up, accessors and button handlers

    A shallow embedding of [main/boards/bread-compact-ml307/compact_ml307_board.cc].

    The C++ class [CompactMl307Board] is modelled by explicit state passing:
    a [World] holds the members of the board object, the function-local
    statics of the accessors, the objects allocated with [new], and the
    trace of everything the code does to its collaborators (driver calls,
    log lines, handler registrations, application calls).  A computation is
    a function from a [World] to a [Result]; it either returns, or the
    process aborts ([ESP_ERROR_CHECK]), or it dereferences a pointer that
    points to nothing. *)

From Stdlib Require Import ZArith Lia String DecimalString.
From stdpp Require Import base option list gmap strings.

(* ===================================================================== *)
(** ** Machine integers and [std::to_string] *)
(* ===================================================================== *)

Module Int.

Local Open Scope Z_scope.

(** The value of a C++ [int] (32 bits, two's complement) that holds the
    mathematical integer [z].  Overflow of a signed [int] is undefined in
    C++; wrapping is the choice of the model there, and what is proved
    about the arithmetic of the click handlers is proved under a
    hypothesis that excludes overflow. *)
Definition wrap (z : Z) : Z := (z + 2 ^ 31) mod 2 ^ 32 - 2 ^ 31.

Definition in_range (z : Z) : Prop := - 2 ^ 31 <= z < 2 ^ 31.

(** [std::to_string(int)]: decimal digits, a leading minus sign for a
    negative number, "0" for zero. *)
Definition to_string (z : Z) : string := NilZero.string_of_int (Z.to_int z).

Lemma wrap_small z : in_range z -> wrap z = z.
Proof.
  unfold in_range, wrap. intros Hz.
  rewrite Z.mod_small by lia. lia.
Qed.

Lemma wrap_in_range z : in_range (wrap z).
Proof.
  unfold in_range, wrap.
  pose proof (Z.mod_pos_bound (z + 2 ^ 31) (2 ^ 32) eq_refl). lia.
Qed.

End Int.

(* ===================================================================== *)
(** ** What the board file takes from elsewhere *)
(* ===================================================================== *)

(** [esp_err_t] and [ESP_OK] of the ESP-IDF. *)
Definition esp_err_t : Type := Z.
Definition ESP_OK : esp_err_t := 0%Z.
Definition ESP_FAIL : esp_err_t := (-1)%Z.

(** The constants of [config.h] that the board file names. *)
Record BoardConfig : Type := {
  DISPLAY_SDA_PIN : Z;
  DISPLAY_SCL_PIN : Z;
  DISPLAY_WIDTH : Z;
  DISPLAY_HEIGHT : Z;
  DISPLAY_MIRROR_X : bool;
  DISPLAY_MIRROR_Y : bool;
  ML307_TX_PIN : Z;
  ML307_RX_PIN : Z;
  BOOT_BUTTON_GPIO : Z;
  TOUCH_BUTTON_GPIO : Z;
  VOLUME_UP_BUTTON_GPIO : Z;
  VOLUME_DOWN_BUTTON_GPIO : Z;
  BUILTIN_LED_GPIO : Z;
  (** [#ifdef AUDIO_I2S_METHOD_SIMPLEX] *)
  AUDIO_I2S_METHOD_SIMPLEX : bool
}.

(** The strings of [Lang::Strings] ([assets/lang_config.h]) that the
    handlers show. *)
Record LangStrings : Type := {
  VOLUME : string;
  MAX_VOLUME : string;
  MUTED : string
}.

(** The driver calls of the bring-up, in the order of the source. *)
Inductive DriverCall : Type :=
| i2c_new_master_bus
| esp_lcd_new_panel_io_i2c_v2
| esp_lcd_new_panel_ssd1306
| esp_lcd_panel_reset
| esp_lcd_panel_init
| esp_lcd_panel_disp_on_off.

#[global] Instance DriverCall_eq_dec : EqDecision DriverCall.
Proof. solve_decision. Defined.

(** The hardware the process runs on: what each driver call answers, the
    handles the creating calls hand out, and the volume a freshly
    constructed codec starts with. *)
Record Hardware : Type := {
  answer : DriverCall -> esp_err_t;
  bus_handle : Z;
  io_handle : Z;
  panel_handle : Z;
  codec_initial_volume : Z
}.

(* ===================================================================== *)
(** ** Objects *)
(* ===================================================================== *)

(** Where an object lives: the two function-local statics, or a cell
    allocated with [new]. *)
Inductive Addr : Type :=
| StaticLed
| StaticAudioCodec
| Cell (n : nat).

Inductive Ptr : Type :=
| nullptr
| ptr (a : Addr).

#[global] Instance Addr_eq_dec : EqDecision Addr.
Proof. solve_decision. Defined.

#[global] Instance Ptr_eq_dec : EqDecision Ptr.
Proof. solve_decision. Defined.

(** [SingleLed led(BUILTIN_LED_GPIO)]. *)
Record Led : Type := { led_gpio : Z }.

(** The codec behind [GetAudioCodec()]: which of the two classes the build
    selected, and its output volume. *)
Record AudioCodec : Type := {
  simplex : bool;
  output_volume_ : Z
}.

(** Modelled from the spec: the classes [NoDisplay] and [OledDisplay] of
    [display/] are not part of the board file.  The facade is a variant
    over a real display (panel handles, width, height, mirror flags, and
    the transient message it currently renders) and a display that shows
    nothing. *)
Inductive Display : Type :=
| NoDisplay
| OledDisplay (panel_io panel : option Z) (width height : Z) (mirror_x mirror_y : bool)
              (shown : option string).

(** Modelled from the spec: [ShowNotification(text)] renders a transient
    message; on the display that shows nothing it is a no-op. *)
Definition show_notification (text : string) (d : Display) : Display :=
  match d with
  | NoDisplay => NoDisplay
  | OledDisplay io p w h mx my _ => OledDisplay io p w h mx my (Some text)
  end.

(* ===================================================================== *)
(** ** Buttons and their handlers *)
(* ===================================================================== *)

(** The four [Button] members of the board. *)
Inductive ButtonId : Type :=
| boot_button_
| touch_button_
| volume_up_button_
| volume_down_button_.

(** The event kinds a handler can be registered for: [OnPressDown],
    [OnPressUp], [OnClick], [OnLongPress]. *)
Inductive ButtonEvent : Type :=
| PressDown
| PressUp
| Click
| LongPress.

(** The seven lambdas of [InitializeButtons], in source order. *)
Inductive Handler : Type :=
| BootClick
| TouchPressDown
| TouchPressUp
| VolumeUpClick
| VolumeUpLongPress
| VolumeDownClick
| VolumeDownLongPress.

#[global] Instance ButtonId_eq_dec : EqDecision ButtonId.
Proof. solve_decision. Defined.

#[global] Instance ButtonEvent_eq_dec : EqDecision ButtonEvent.
Proof. solve_decision. Defined.

#[global] Instance Handler_eq_dec : EqDecision Handler.
Proof. solve_decision. Defined.

#[global] Instance ButtonId_countable : Countable ButtonId.
Proof.
  refine (inj_countable'
    (fun b => match b with
              | boot_button_ => 0 | touch_button_ => 1
              | volume_up_button_ => 2 | volume_down_button_ => 3
              end)%nat
    (fun n => match n with
              | 0 => boot_button_ | 1 => touch_button_
              | 2 => volume_up_button_ | _ => volume_down_button_
              end)%nat _).
  by intros [].
Defined.

#[global] Instance ButtonEvent_countable : Countable ButtonEvent.
Proof.
  refine (inj_countable'
    (fun e => match e with
              | PressDown => 0 | PressUp => 1 | Click => 2 | LongPress => 3
              end)%nat
    (fun n => match n with
              | 0 => PressDown | 1 => PressUp | 2 => Click | _ => LongPress
              end)%nat _).
  by intros [].
Defined.

(** The calls into [Application::GetInstance()]. *)
Inductive AppCall : Type :=
| ToggleChatState
| StartListening
| StopListening.

Inductive LogLevel : Type :=
| LogInfo
| LogError.

(** Everything the board code does that another component can see. *)
Inductive Action : Type :=
| ABaseCtor (tx rx buffer : Z)              (* Ml307Board(tx, rx, 4096) *)
| AButtonCtor (b : ButtonId) (gpio : Z)     (* Button(gpio) *)
| ADriver (c : DriverCall) (rc : esp_err_t) (* a driver call and its answer *)
| ALog (lvl : LogLevel) (msg : string)      (* ESP_LOGI / ESP_LOGE *)
| ANew (n : nat) (d : Display)              (* new NoDisplay / new OledDisplay *)
| AStatic (a : Addr)                        (* first pass over a static *)
| ARegister (b : ButtonId) (e : ButtonEvent) (h : Handler)
| AAddThing (name : string)                 (* ThingManager::AddThing *)
| AApp (c : AppCall)
| ASetOutputVolume (v : Z)
| AShowNotification (n : nat) (text : string).

(* ===================================================================== *)
(** ** The world and the computations over it *)
(* ===================================================================== *)

(** The members of the board object ([display_i2c_bus_], [panel_io_],
    [panel_], [display_], and the handler sets of its four buttons), the
    statics of [GetLed] and [GetAudioCodec] ([None] until the first pass),
    the cells allocated with [new], and the trace. *)
Record World : Type := {
  heap : gmap nat Display;
  display_i2c_bus_ : option Z;
  panel_io_ : option Z;
  panel_ : option Z;
  display_ : Ptr;
  handlers : gmap (ButtonId * ButtonEvent) Handler;
  led : option Led;
  audio_codec : option AudioCodec;
  trace : list Action
}.

Definition set_heap (f : gmap nat Display -> gmap nat Display) (w : World) : World :=
  {| heap := f (heap w); display_i2c_bus_ := display_i2c_bus_ w;
     panel_io_ := panel_io_ w; panel_ := panel_ w; display_ := display_ w;
     handlers := handlers w; led := led w; audio_codec := audio_codec w;
     trace := trace w |}.

Definition set_display_i2c_bus_ (h : option Z) (w : World) : World :=
  {| heap := heap w; display_i2c_bus_ := h;
     panel_io_ := panel_io_ w; panel_ := panel_ w; display_ := display_ w;
     handlers := handlers w; led := led w; audio_codec := audio_codec w;
     trace := trace w |}.

Definition set_panel_io_ (h : option Z) (w : World) : World :=
  {| heap := heap w; display_i2c_bus_ := display_i2c_bus_ w;
     panel_io_ := h; panel_ := panel_ w; display_ := display_ w;
     handlers := handlers w; led := led w; audio_codec := audio_codec w;
     trace := trace w |}.

Definition set_panel_ (h : option Z) (w : World) : World :=
  {| heap := heap w; display_i2c_bus_ := display_i2c_bus_ w;
     panel_io_ := panel_io_ w; panel_ := h; display_ := display_ w;
     handlers := handlers w; led := led w; audio_codec := audio_codec w;
     trace := trace w |}.

Definition set_display_ (p : Ptr) (w : World) : World :=
  {| heap := heap w; display_i2c_bus_ := display_i2c_bus_ w;
     panel_io_ := panel_io_ w; panel_ := panel_ w; display_ := p;
     handlers := handlers w; led := led w; audio_codec := audio_codec w;
     trace := trace w |}.

Definition set_handlers
    (f : gmap (ButtonId * ButtonEvent) Handler -> gmap (ButtonId * ButtonEvent) Handler)
    (w : World) : World :=
  {| heap := heap w; display_i2c_bus_ := display_i2c_bus_ w;
     panel_io_ := panel_io_ w; panel_ := panel_ w; display_ := display_ w;
     handlers := f (handlers w); led := led w; audio_codec := audio_codec w;
     trace := trace w |}.

Definition set_led (l : option Led) (w : World) : World :=
  {| heap := heap w; display_i2c_bus_ := display_i2c_bus_ w;
     panel_io_ := panel_io_ w; panel_ := panel_ w; display_ := display_ w;
     handlers := handlers w; led := l; audio_codec := audio_codec w;
     trace := trace w |}.

Definition set_audio_codec (c : option AudioCodec) (w : World) : World :=
  {| heap := heap w; display_i2c_bus_ := display_i2c_bus_ w;
     panel_io_ := panel_io_ w; panel_ := panel_ w; display_ := display_ w;
     handlers := handlers w; led := led w; audio_codec := c;
     trace := trace w |}.

(** Append one action to the trace. *)
Definition emit (a : Action) (w : World) : World :=
  {| heap := heap w; display_i2c_bus_ := display_i2c_bus_ w;
     panel_io_ := panel_io_ w; panel_ := panel_ w; display_ := display_ w;
     handlers := handlers w; led := led w; audio_codec := audio_codec w;
     trace := trace w ++ [a] |}.

(** The process before [main] reaches the board: nothing constructed,
    nothing done. *)
Definition process_start : World :=
  {| heap := ∅; display_i2c_bus_ := None; panel_io_ := None; panel_ := None;
     display_ := nullptr; handlers := ∅; led := None; audio_codec := None;
     trace := [] |}.

(** How a computation ends: it returns; or [ESP_ERROR_CHECK] prints the
    failed expression with its error code and calls [abort()]; or a pointer
    that points to no object is dereferenced. *)
Inductive Result (A : Type) : Type :=
| Returned (a : A) (w : World)
| Aborted (expr : string) (rc : esp_err_t) (w : World)
| Faulted (w : World).

Arguments Returned {A} a w.
Arguments Aborted {A} expr rc w.
Arguments Faulted {A} w.

Definition M (A : Type) : Type := World -> Result A.

Definition ret {A} (a : A) : M A := fun w => Returned a w.

Definition bind {A B} (c : M A) (k : A -> M B) : M B := fun w =>
  match c w with
  | Returned a w' => k a w'
  | Aborted expr rc w' => Aborted expr rc w'
  | Faulted w' => Faulted w'
  end.

Definition abort {A} (expr : string) (rc : esp_err_t) : M A :=
  fun w => Aborted expr rc w.

Definition fault {A} : M A := fun w => Faulted w.

Definition modify (f : World -> World) : M unit := fun w => Returned tt (f w).

Definition gets {A} (f : World -> A) : M A := fun w => Returned (f w) w.

Declare Scope board_scope.
Delimit Scope board_scope with board.
Notation "'let*' x := c 'in' k" := (bind c (fun x => k))
  (at level 10, x name, c at level 100, k at level 200) : board_scope.
Notation "c >> k" := (bind c (fun _ => k))
  (at level 65, right associativity) : board_scope.

(** The world a computation leaves behind, however it ended. *)
Definition world_of {A} (r : Result A) : World :=
  match r with
  | Returned _ w => w
  | Aborted _ _ w => w
  | Faulted w => w
  end.

Definition returned {A} (r : Result A) : bool :=
  match r with Returned _ _ => true | _ => false end.

Definition aborted {A} (r : Result A) : bool :=
  match r with Aborted _ _ _ => true | _ => false end.

(* ===================================================================== *)
(** ** Function bodies, statement by statement *)
(* ===================================================================== *)

(** The body of a C++ function whose statements run one after the other:
    a statement, or a call of a function with such a body.  Keeping the
    statements apart keeps the worlds between them: [exec] runs a body,
    [statements] lists its statements in the order they run, and
    [checkpoints] gives the world before each statement that is reached,
    and the world after the last one when all have returned. *)
#[warnings="-register-all"] Inductive Code : Type :=
| Statement (c : M unit)
| Body (body : list Code).

Fixpoint exec (p : Code) : M unit :=
  match p with
  | Statement c => c
  | Body body =>
      fold_right (fun s rest => bind (exec s) (fun _ => rest)) (ret tt) body
  end.

Fixpoint statements (p : Code) : list (M unit) :=
  match p with
  | Statement c => [c]
  | Body body => flat_map statements body
  end.

Fixpoint checkpoints (l : list (M unit)) (w : World) : list World :=
  match l with
  | [] => [w]
  | c :: l' =>
      w :: match c w with
           | Returned _ w' => checkpoints l' w'
           | _ => []
           end
  end.

(* ===================================================================== *)
(** ** The board *)
(* ===================================================================== *)

Section Board.

Variable cfg : BoardConfig.
Variable lang : LangStrings.
Variable hw : Hardware.

Local Open Scope board_scope.

(** *** Collaborators *)

(** A driver call: the hardware answers; when the answer is [ESP_OK] the
    call has filled its output parameter ([out]). *)
Definition driver (c : DriverCall) (out : World -> World) : M esp_err_t :=
  fun w =>
    let rc := answer hw c in
    let w' := emit (ADriver c rc) w in
    Returned rc (if decide (rc = ESP_OK) then out w' else w').

(** [ESP_ERROR_CHECK(x)] of the ESP-IDF: evaluate [x]; unless it is
    [ESP_OK], print the failed expression with its code and abort. *)
Definition ESP_ERROR_CHECK (expr : string) (x : M esp_err_t) : M unit :=
  let* err_rc_ := x in
  if decide (err_rc_ = ESP_OK) then ret tt else abort expr err_rc_.

Definition ESP_LOGI (msg : string) : M unit := modify (emit (ALog LogInfo msg)).
Definition ESP_LOGE (msg : string) : M unit := modify (emit (ALog LogError msg)).

(** [new T(...)]: a cell no live object occupies. *)
Definition new (d : Display) : M Ptr := fun w =>
  let n := fresh (dom (heap w)) in
  Returned (ptr (Cell n)) (emit (ANew n d) (set_heap (insert n d) w)).

(** [b.OnClick(h)], [b.OnPressDown(h)], [b.OnPressUp(h)],
    [b.OnLongPress(h)]: store the callback for that event kind. *)
Definition register (b : ButtonId) (e : ButtonEvent) (h : Handler) : M unit :=
  modify (fun w => emit (ARegister b e h) (set_handlers (insert (b, e) h) w)).

Definition OnClick (b : ButtonId) := register b Click.
Definition OnPressDown (b : ButtonId) := register b PressDown.
Definition OnPressUp (b : ButtonId) := register b PressUp.
Definition OnLongPress (b : ButtonId) := register b LongPress.

(** [Button(gpio)]: a button with no callback yet. *)
Definition Button (b : ButtonId) (gpio : Z) : M unit :=
  modify (fun w =>
    emit (AButtonCtor b gpio)
         (set_handlers (filter (fun kv => fst (fst kv) <> b)) w)).

Definition Application (c : AppCall) : M unit := modify (emit (AApp c)).

Definition AddThing (name : string) : M unit := modify (emit (AAddThing name)).

(** *** Accessors (source lines 212-242) *)

(** [static SingleLed led(BUILTIN_LED_GPIO); return &led;] *)
Definition GetLed : M Ptr := fun w =>
  match led w with
  | Some _ => Returned (ptr StaticLed) w
  | None =>
      Returned (ptr StaticLed)
        (emit (AStatic StaticLed)
           (set_led (Some {| led_gpio := BUILTIN_LED_GPIO cfg |}) w))
  end.

(** [static NoAudioCodecSimplex audio_codec(...)] or
    [static NoAudioCodecDuplex audio_codec(...)], then
    [return &audio_codec;] *)
Definition GetAudioCodec : M Ptr := fun w =>
  match audio_codec w with
  | Some _ => Returned (ptr StaticAudioCodec) w
  | None =>
      Returned (ptr StaticAudioCodec)
        (emit (AStatic StaticAudioCodec)
           (set_audio_codec
              (Some {| simplex := AUDIO_I2S_METHOD_SIMPLEX cfg;
                       output_volume_ := codec_initial_volume hw |}) w))
  end.

(** [return display_;] *)
Definition GetDisplay : M Ptr := gets display_.

(** *** Methods called through the pointers *)

(** [codec->output_volume()] *)
Definition output_volume (codec : Ptr) : M Z := fun w =>
  match codec, audio_codec w with
  | ptr StaticAudioCodec, Some c => Returned (output_volume_ c) w
  | _, _ => Faulted w
  end.

(** Modelled from the spec: [codec->SetOutputVolume(volume)] of the audio
    codec class, which is not part of the board file; it stores the
    volume in the codec's output-volume field. *)
Definition SetOutputVolume (codec : Ptr) (volume : Z) : M unit := fun w =>
  match codec, audio_codec w with
  | ptr StaticAudioCodec, Some c =>
      Returned tt
        (emit (ASetOutputVolume volume)
           (set_audio_codec
              (Some {| simplex := simplex c; output_volume_ := volume |}) w))
  | _, _ => Faulted w
  end.

(** [display->ShowNotification(text)], through [show_notification]. *)
Definition ShowNotification (display : Ptr) (text : string) : M unit := fun w =>
  match display with
  | ptr (Cell n) =>
      match heap w !! n with
      | Some d =>
          Returned tt
            (emit (AShowNotification n text)
               (set_heap (insert n (show_notification text d)) w))
      | None => Faulted w
      end
  | _ => Faulted w
  end.

(** *** Bring-up (source lines 45-120)

    The configuration structures handed to the driver calls
    ([bus_config], [io_config], [panel_config]) are constants; what the
    calls answer is the hardware's. *)

Definition InitializeDisplayI2c : M unit :=
  ESP_ERROR_CHECK "i2c_new_master_bus(&bus_config, &display_i2c_bus_)"
    (driver i2c_new_master_bus (set_display_i2c_bus_ (Some (bus_handle hw)))).

Definition InitializeSsd1306Display : M unit :=
  ESP_ERROR_CHECK "esp_lcd_new_panel_io_i2c_v2(display_i2c_bus_, &io_config, &panel_io_)"
    (driver esp_lcd_new_panel_io_i2c_v2 (set_panel_io_ (Some (io_handle hw)))) >>
  ESP_LOGI "Install SSD1306 driver" >>
  ESP_ERROR_CHECK "esp_lcd_new_panel_ssd1306(panel_io_, &panel_config, &panel_)"
    (driver esp_lcd_new_panel_ssd1306 (set_panel_ (Some (panel_handle hw)))) >>
  ESP_LOGI "SSD1306 driver installed" >>
  ESP_ERROR_CHECK "esp_lcd_panel_reset(panel_)" (driver esp_lcd_panel_reset id) >>
  let* rc := driver esp_lcd_panel_init id in
  if decide (rc <> ESP_OK) then
    ESP_LOGE "Failed to initialize display" >>
    let* d := new NoDisplay in
    modify (set_display_ d)
  else
    ESP_LOGI "Turning display on" >>
    ESP_ERROR_CHECK "esp_lcd_panel_disp_on_off(panel_, true)"
      (driver esp_lcd_panel_disp_on_off id) >>
    let* io := gets panel_io_ in
    let* panel := gets panel_ in
    let* d := new (OledDisplay io panel (DISPLAY_WIDTH cfg) (DISPLAY_HEIGHT cfg)
                     (DISPLAY_MIRROR_X cfg) (DISPLAY_MIRROR_Y cfg) None) in
    modify (set_display_ d).

(** *** The handlers (the lambdas of source lines 129-175) *)

Definition run_handler (h : Handler) : M unit :=
  match h with
  | BootClick => Application ToggleChatState
  | TouchPressDown => Application StartListening
  | TouchPressUp => Application StopListening
  | VolumeUpClick =>
      let* codec := GetAudioCodec in
      let* v := output_volume codec in
      let volume := Int.wrap (v + 10) in
      let volume := if (100 <? volume)%Z then 100%Z else volume in
      SetOutputVolume codec volume >>
      let* display := GetDisplay in
      ShowNotification display (VOLUME lang +:+ Int.to_string volume)
  | VolumeUpLongPress =>
      let* codec := GetAudioCodec in
      SetOutputVolume codec 100 >>
      let* display := GetDisplay in
      ShowNotification display (MAX_VOLUME lang)
  | VolumeDownClick =>
      let* codec := GetAudioCodec in
      let* v := output_volume codec in
      let volume := Int.wrap (v - 10) in
      let volume := if (volume <? 0)%Z then 0%Z else volume in
      SetOutputVolume codec volume >>
      let* display := GetDisplay in
      ShowNotification display (VOLUME lang +:+ Int.to_string volume)
  | VolumeDownLongPress =>
      let* codec := GetAudioCodec in
      SetOutputVolume codec 0 >>
      let* display := GetDisplay in
      ShowNotification display (MUTED lang)
  end.

Definition InitializeButtons_body : Code :=
  Body [Statement (OnClick boot_button_ BootClick);
        Statement (OnPressDown touch_button_ TouchPressDown);
        Statement (OnPressUp touch_button_ TouchPressUp);
        Statement (OnClick volume_up_button_ VolumeUpClick);
        Statement (OnLongPress volume_up_button_ VolumeUpLongPress);
        Statement (OnClick volume_down_button_ VolumeDownClick);
        Statement (OnLongPress volume_down_button_ VolumeDownLongPress)].

Definition InitializeButtons : M unit := exec InitializeButtons_body.

Definition InitializeIot_body : Code :=
  Body [Statement (AddThing "Speaker");
        Statement (AddThing "Lamp")].

Definition InitializeIot : M unit := exec InitializeIot_body.

(** The constructor (source lines 195-205): the base class, the default
    member initialisers, the four buttons, then the four calls of the
    body. *)
Definition CompactMl307Board_body : Code :=
  Body [Statement (modify (emit (ABaseCtor (ML307_TX_PIN cfg)
                                   (ML307_RX_PIN cfg) 4096)));
        Statement (modify (set_panel_io_ None));
        Statement (modify (set_panel_ None));
        Statement (modify (set_display_ nullptr));
        Statement (Button boot_button_ (BOOT_BUTTON_GPIO cfg));
        Statement (Button touch_button_ (TOUCH_BUTTON_GPIO cfg));
        Statement (Button volume_up_button_ (VOLUME_UP_BUTTON_GPIO cfg));
        Statement (Button volume_down_button_ (VOLUME_DOWN_BUTTON_GPIO cfg));
        Statement InitializeDisplayI2c;
        Statement InitializeSsd1306Display;
        InitializeButtons_body;
        InitializeIot_body].

Definition CompactMl307Board : M unit := exec CompactMl307Board_body.

(** Modelled from the spec: the button class is not part of the board
    file.  A button fires an event synchronously to the handler
    registered for it, if one is registered. *)
Definition fire (b : ButtonId) (e : ButtonEvent) : M unit := fun w =>
  match handlers w !! (b, e) with
  | Some h => run_handler h w
  | None => Returned tt w
  end.

End Board.

Definition sample_config : BoardConfig :=
  {| DISPLAY_SDA_PIN := 41; DISPLAY_SCL_PIN := 42;
     DISPLAY_WIDTH := 128; DISPLAY_HEIGHT := 32;
     DISPLAY_MIRROR_X := true; DISPLAY_MIRROR_Y := true;
     ML307_TX_PIN := 12; ML307_RX_PIN := 11;
     BOOT_BUTTON_GPIO := 0; TOUCH_BUTTON_GPIO := 47;
     VOLUME_UP_BUTTON_GPIO := 40; VOLUME_DOWN_BUTTON_GPIO := 39;
     BUILTIN_LED_GPIO := 48; AUDIO_I2S_METHOD_SIMPLEX := true |}.

(** Modelled from the spec: the three strings of [Lang::Strings] as the
    spec quotes them ("Volume 100", "max volume", "muted"). *)
Definition lang_spec : LangStrings :=
  {| VOLUME := "Volume "; MAX_VOLUME := "max volume"; MUTED := "muted" |}.

(** Hardware on which every driver call answers [ESP_OK] except the listed
    ones, which answer [ESP_FAIL]. *)
Definition failing (bad : list DriverCall) (v0 : Z) : Hardware :=
  {| answer := fun c => if decide (c ∈ bad) then ESP_FAIL else ESP_OK;
     bus_handle := 1; io_handle := 2; panel_handle := 3;
     codec_initial_volume := v0 |}.


(* ===================================================================== *)
(** ** Running the board *)
(* ===================================================================== *)

(** The handler each event of each button is wired to by
    [InitializeButtons]. *)
Definition wired (b : ButtonId) (e : ButtonEvent) : option Handler :=
  match b, e with
  | boot_button_, Click => Some BootClick
  | touch_button_, PressDown => Some TouchPressDown
  | touch_button_, PressUp => Some TouchPressUp
  | volume_up_button_, Click => Some VolumeUpClick
  | volume_up_button_, LongPress => Some VolumeUpLongPress
  | volume_down_button_, Click => Some VolumeDownClick
  | volume_down_button_, LongPress => Some VolumeDownLongPress
  | _, _ => None
  end.

(** The first four steps of the bring-up: bus creation, panel I/O
    creation, panel driver creation, panel reset. *)
Definition fatal_step (c : DriverCall) : bool :=
  match c with
  | i2c_new_master_bus | esp_lcd_new_panel_io_i2c_v2
  | esp_lcd_new_panel_ssd1306 | esp_lcd_panel_reset => true
  | _ => false
  end.

(** The expression [ESP_ERROR_CHECK] prints for each checked call. *)
Definition checked_expression (c : DriverCall) : string :=
  match c with
  | i2c_new_master_bus =>
      "i2c_new_master_bus(&bus_config, &display_i2c_bus_)"
  | esp_lcd_new_panel_io_i2c_v2 =>
      "esp_lcd_new_panel_io_i2c_v2(display_i2c_bus_, &io_config, &panel_io_)"
  | esp_lcd_new_panel_ssd1306 =>
      "esp_lcd_new_panel_ssd1306(panel_io_, &panel_config, &panel_)"
  | esp_lcd_panel_reset => "esp_lcd_panel_reset(panel_)"
  | esp_lcd_panel_init => "esp_lcd_panel_init(panel_)"
  | esp_lcd_panel_disp_on_off => "esp_lcd_panel_disp_on_off(panel_, true)"
  end.

Definition is_register (a : Action) : bool :=
  match a with ARegister _ _ _ => true | _ => false end.

Definition is_new (a : Action) : bool :=
  match a with ANew _ _ => true | _ => false end.

(** Reading a trace from its start: every handler registration comes after
    a display construction ([seen] tells whether one was passed already). *)
Fixpoint wired_after_display (seen : bool) (t : list Action) : bool :=
  match t with
  | [] => true
  | a :: t' =>
      if is_register a then seen && wired_after_display seen t'
      else wired_after_display (seen || is_new a) t'
  end.

(** The object a pointer points to exists. *)
Definition live (w : World) (p : Ptr) : bool :=
  match p with
  | nullptr => false
  | ptr StaticLed => bool_decide (is_Some (led w))
  | ptr StaticAudioCodec => bool_decide (is_Some (audio_codec w))
  | ptr (Cell n) => bool_decide (is_Some (heap w !! n))
  end.

(** The result of a returned call. *)
Definition value {A} (r : Result A) : option A :=
  match r with Returned a _ => Some a | _ => None end.

(** A call of an accessor constructs the instance it returns: the object
    did not exist before the call and exists after it. *)
Definition constructs (acc : M Ptr) (w : World) : bool :=
  match acc w with
  | Returned p w' => negb (live w p) && live w' p
  | _ => false
  end.

(** An accessor called twice in a row: the second call returns what the
    first returned and changes nothing. *)
Definition idempotent (acc : M Ptr) (w : World) : Prop :=
  exists p w1, acc w = Returned p w1 /\ acc w1 = Returned p w1.

(** The volume [GetAudioCodec()->output_volume()] reads in a world. *)
Definition volume_of (hw : Hardware) (w : World) : Z :=
  match audio_codec w with
  | Some c => output_volume_ c
  | None => codec_initial_volume hw
  end.

Definition is_null_display (d : Display) : bool :=
  match d with NoDisplay => true | OledDisplay _ _ _ _ _ _ _ => false end.

(** The worlds of a running board: the constructor has returned, and any
    number of button events have been fired since. *)
Inductive running (cfg : BoardConfig) (lang : LangStrings) (hw : Hardware)
  : World -> Prop :=
| running_boot w :
    CompactMl307Board cfg hw process_start = Returned tt w ->
    running cfg lang hw w
| running_fire w b e w' :
    running cfg lang hw w ->
    fire cfg lang hw b e w = Returned tt w' ->
    running cfg lang hw w'.

(** What every running world satisfies: [display_] points to a live
    display, and the handler sets are the ones [InitializeButtons] wired. *)
Definition board_inv (w : World) : Prop :=
  (exists n d, display_ w = ptr (Cell n) /\ heap w !! n = Some d) /\
  (forall b e, handlers w !! (b, e) = wired b e).

(** A handler call [r], started in [w], has returned; it has set the
    volume to [v'] and then shown [text] on the display in cell [n], and
    has left [display_] and the handler sets alone. *)
Definition sets_and_shows (hw : Hardware) (w : World) (r : Result unit)
    (n : nat) (v' : Z) (text : string) : Prop :=
  exists w',
    r = Returned tt w' /\
    volume_of hw w' = v' /\
    heap w' !! n = show_notification text <$> heap w !! n /\
    last (trace w') = Some (AShowNotification n text) /\
    ASetOutputVolume v' ∈ trace w' /\
    display_ w' = display_ w /\
    handlers w' = handlers w.

(** The board after a bring-up on hardware where every call succeeds and
    the codec starts at volume [v0]. *)
Definition booted (v0 : Z) : World :=
  world_of (CompactMl307Board sample_config (failing [] v0) process_start).

(** The board after a bring-up on which only the panel content
    initialisation failed. *)
Definition booted_blind (v0 : Z) : World :=
  world_of (CompactMl307Board sample_config (failing [esp_lcd_panel_init] v0)
              process_start).

(** The board booted at volume 70, after one click of the volume-up
    button: the codec exists and holds 80. *)
Definition booted_then_up : World :=
  world_of (fire sample_config lang_spec (failing [] 70) volume_up_button_ Click
              (booted 70)).


(* ===================================================================== *)
(** ** The button state machine *)
(* ===================================================================== *)

(** Modelled from the spec: the class [Button] of [button.h] is not part of
    the board file.  What follows is the spec's Button State Machine: a
    digital line is sampled once per tick; a level change is accepted
    after the new level has been stable for the debounce window; the
    accepted level drives the states [Idle], [Pressed], [LongPressFired];
    the long-press threshold is measured from the entry into [Pressed].
    Window and threshold are counted in ticks. *)
Module ButtonMachine.

(** Modelled from the spec: signal line, debounce window, long-press
    threshold; immutable after construction. *)
Record ButtonConfig : Type := {
  signal_line : Z;
  debounce_window : nat;
  long_press_threshold : nat
}.

(** Modelled from the spec: the three states of a button. *)
Inductive ButtonState : Type :=
| Idle
| Pressed
| LongPressFired.

(** Modelled from the spec: the debounced line.  [level] is the accepted
    level ([true]: asserted); [pending] counts the latest consecutive
    samples that showed the other level. *)
Record Line : Type := {
  level : bool;
  pending : nat
}.

(** Modelled from the spec: one raw sample.  A sample at the accepted
    level forgets a pending change; a sample at the other level is
    accepted once that level has been seen for the whole window. *)
Definition debounce (cfg : ButtonConfig) (l : Line) (raw : bool) : Line :=
  if Bool.eqb raw (level l) then {| level := level l; pending := 0 |}
  else if debounce_window cfg <=? S (pending l)
       then {| level := raw; pending := 0 |}
       else {| level := level l; pending := S (pending l) |}.

(** Modelled from the spec: the transition rules of section 4.3, on one
    sample of the debounced level.  [held] is the number of ticks since
    [Pressed] was entered. *)
Definition transition (cfg : ButtonConfig) (s : ButtonState) (held : nat)
    (asserted : bool) : ButtonState * nat * list ButtonEvent :=
  match s, asserted with
  | Idle, true => (Pressed, 0, [PressDown])
  | Idle, false => (Idle, 0, [])
  | Pressed, true =>
      if long_press_threshold cfg <? S held
      then (LongPressFired, S held, [LongPress])
      else (Pressed, S held, [])
  | Pressed, false => (Idle, 0, [PressUp; Click])
  | LongPressFired, true => (LongPressFired, S held, [])
  | LongPressFired, false => (Idle, 0, [PressUp])
  end.

Record Machine : Type := {
  line : Line;
  state : ButtonState;
  held : nat
}.

(** A button whose line has been released since power-on. *)
Definition power_on : Machine :=
  {| line := {| level := false; pending := 0 |}; state := Idle; held := 0 |}.

(** One tick: sample the raw line, debounce, take the transition. *)
Definition step (cfg : ButtonConfig) (m : Machine) (raw : bool)
    : Machine * list ButtonEvent :=
  let l := debounce cfg (line m) raw in
  let '(s, h, evs) := transition cfg (state m) (held m) (level l) in
  ({| line := l; state := s; held := h |}, evs).

(** The machine after a sequence of raw samples. *)
Definition final (cfg : ButtonConfig) (m : Machine) (raws : list bool) : Machine :=
  fold_left (fun m raw => fst (step cfg m raw)) raws m.

(** The events fired at each sample of a sequence. *)
Fixpoint outputs (cfg : ButtonConfig) (m : Machine) (raws : list bool)
    : list (list ButtonEvent) :=
  match raws with
  | [] => []
  | raw :: raws' => snd (step cfg m raw) :: outputs cfg (fst (step cfg m raw)) raws'
  end.

(** All events of a sequence of samples, in order. *)
Definition events (cfg : ButtonConfig) (m : Machine) (raws : list bool)
    : list ButtonEvent :=
  concat (outputs cfg m raws).

(** The debounced level after each sample of a sequence. *)
Fixpoint levels (cfg : ButtonConfig) (l : Line) (raws : list bool) : list bool :=
  match raws with
  | [] => []
  | raw :: raws' => level (debounce cfg l raw) :: levels cfg (debounce cfg l raw) raws'
  end.

(** The events the states fire on a sequence of debounced levels. *)
Fixpoint react (cfg : ButtonConfig) (s : ButtonState) (held : nat)
    (lv : list bool) : list ButtonEvent :=
  match lv with
  | [] => []
  | asserted :: lv' =>
      let '(s', h', evs) := transition cfg s held asserted in
      evs ++ react cfg s' h' lv'
  end.

(** The events fired at the sample [raw] that follows the samples [raws]
    after power-on. *)
Definition fired (cfg : ButtonConfig) (raws : list bool) (raw : bool)
    : list ButtonEvent :=
  snd (step cfg (final cfg power_on raws) raw).

(** A complete press-release cycle. *)
Definition click_cycle : list ButtonEvent := [PressDown; PressUp; Click].
Definition long_press_cycle : list ButtonEvent := [PressDown; LongPress; PressUp].

(** A stream of events made of complete cycles, each one a click cycle
    or a long-press cycle, and then possibly a press still in progress. *)
Definition press_cycles (evs : list ButtonEvent) : Prop :=
  exists (cycles : list (list ButtonEvent)) (open : list ButtonEvent),
    evs = concat cycles ++ open /\
    Forall (fun c => c = click_cycle \/ c = long_press_cycle) cycles /\
    (open = [] \/ open = [PressDown] \/ open = [PressDown; LongPress]).

(** Raw noise on a released line: bursts of asserted samples, each
    followed by at least one released sample. *)
Definition noise (bursts : list (nat * nat)) : list bool :=
  concat (map (fun b => repeat true (fst b) ++ repeat false (S (snd b))) bursts).

(** What the events still to come look like, from each state. *)
Definition completes (s : ButtonState) (evs : list ButtonEvent) : Prop :=
  match s with
  | Idle => press_cycles evs
  | Pressed => press_cycles (PressDown :: evs)
  | LongPressFired => press_cycles (PressDown :: LongPress :: evs)
  end.

(** What holds after any sequence of samples from power-on: [raws] are the samples so far, [outs] the events they fired, [m] the
    machine they left: the state is [Idle] exactly when the accepted
    level is released; the last [pending] samples all showed the other
    level; and in [Pressed], [held] ticks without an event have passed
    since the [PressDown], and the threshold is not passed yet. *)
Record settled (cfg : ButtonConfig) (raws : list bool)
    (outs : list (list ButtonEvent)) (m : Machine) : Prop := {
  settled_state : level (line m) = match state m with Idle => false | _ => true end;
  settled_pending :
    exists p, raws = p ++ repeat (negb (level (line m))) (pending (line m));
  settled_held :
    state m = Pressed ->
    held m <= long_press_threshold cfg /\
    exists o, outs = o ++ [PressDown] :: repeat [] (held m)
}.

(** Two machines that differ at most in the pending count of the line. *)
Definition agree (m m' : Machine) : Prop :=
  level (line m) = level (line m') /\ state m = state m' /\ held m = held m'.

Definition sample_button : ButtonConfig :=
  {| signal_line := 40; debounce_window := 3; long_press_threshold := 5 |}.

End ButtonMachine.

(* ===================================================================== *)
(** ** The click handlers, statement by statement *)
(* ===================================================================== *)

(** The two volume buttons. *)
Inductive Side : Type :=
| Up
| Down.

(** Where an activity stands in its click handler: before the read of the
    volume (source lines 145-149 and 162-166), before the write (lines 150
    and 167, with the locals [codec] and [volume]), or before the
    notification (lines 151 and 168). *)
Inductive Pc : Type :=
| AtRead
| AtWrite (codec : Ptr) (volume : Z)
| AtNotify (volume : Z).

(** The activities of the two volume buttons. *)
Record Activities : Type := {
  up_pc : Pc;
  down_pc : Pc
}.

Definition both_ready : Activities := {| up_pc := AtRead; down_pc := AtRead |}.

Definition click_handler (s : Side) : Handler :=
  match s with Up => VolumeUpClick | Down => VolumeDownClick end.

Definition volume_button (s : Side) : ButtonId :=
  match s with Up => volume_up_button_ | Down => volume_down_button_ end.

(** The step of each click handler on a volume in [0, 100]. *)
Definition clamped (s : Side) (v : Z) : Z :=
  match s with
  | Up => Z.min (v + 10) 100
  | Down => Z.max (v - 10) 0
  end.

Section Interleaving.

Variable cfg : BoardConfig.
Variable lang : LangStrings.
Variable hw : Hardware.

Local Open Scope board_scope.

(** The next statement of the click handler of a side. *)
Definition statement (s : Side) (pc : Pc) : M Pc :=
  match pc with
  | AtRead =>
      let* codec := GetAudioCodec cfg hw in
      let* v := output_volume codec in
      match s with
      | Up =>
          let volume := Int.wrap (v + 10) in
          let volume := if (100 <? volume)%Z then 100%Z else volume in
          ret (AtWrite codec volume)
      | Down =>
          let volume := Int.wrap (v - 10) in
          let volume := if (volume <? 0)%Z then 0%Z else volume in
          ret (AtWrite codec volume)
      end
  | AtWrite codec volume =>
      SetOutputVolume codec volume >>
      ret (AtNotify volume)
  | AtNotify volume =>
      let* display := GetDisplay in
      ShowNotification display (VOLUME lang +:+ Int.to_string volume) >>
      ret AtRead
  end.

(** Modelled from the spec: each button has a sampling activity of its
    own, and the button class that runs them is not part of the board
    file.  The scheduler lets the activity of one side run the next
    statement of its handler. *)
Definition schedule_step (s : Side) (a : Activities) : M Activities :=
  match s with
  | Up =>
      let* pc := statement Up (up_pc a) in
      ret {| up_pc := pc; down_pc := down_pc a |}
  | Down =>
      let* pc := statement Down (down_pc a) in
      ret {| up_pc := up_pc a; down_pc := pc |}
  end.

Fixpoint run_schedule (schedule : list Side) (a : Activities) : M Activities :=
  match schedule with
  | [] => ret a
  | s :: schedule' =>
      let* a' := schedule_step s a in
      run_schedule schedule' a'
  end.

(** The schedule that runs one click after the other, each handler from
    its first statement to its last. *)
Definition serial (clicks : list Side) : list Side :=
  flat_map (fun s => [s; s; s]) clicks.

End Interleaving.

(* ===================================================================== *)
(** ** Reading traces and running handlers in sequence *)
(* ===================================================================== *)

(** The six driver calls, in the order the bring-up makes them. *)
Definition bring_up_calls : list DriverCall :=
  [i2c_new_master_bus; esp_lcd_new_panel_io_i2c_v2; esp_lcd_new_panel_ssd1306;
   esp_lcd_panel_reset; esp_lcd_panel_init; esp_lcd_panel_disp_on_off].

(** The place of a call in that order. *)
Definition call_index (c : DriverCall) : nat :=
  match c with
  | i2c_new_master_bus => 0
  | esp_lcd_new_panel_io_i2c_v2 => 1
  | esp_lcd_new_panel_ssd1306 => 2
  | esp_lcd_panel_reset => 3
  | esp_lcd_panel_init => 4
  | esp_lcd_panel_disp_on_off => 5
  end.

(** The driver calls of a trace, in order. *)
Fixpoint driver_calls (t : list Action) : list DriverCall :=
  match t with
  | [] => []
  | ADriver c _ :: t' => c :: driver_calls t'
  | _ :: t' => driver_calls t'
  end.

(** The seven registrations of [InitializeButtons], in source order. *)
Definition registrations : list Action :=
  [ARegister boot_button_ Click BootClick;
   ARegister touch_button_ PressDown TouchPressDown;
   ARegister touch_button_ PressUp TouchPressUp;
   ARegister volume_up_button_ Click VolumeUpClick;
   ARegister volume_up_button_ LongPress VolumeUpLongPress;
   ARegister volume_down_button_ Click VolumeDownClick;
   ARegister volume_down_button_ LongPress VolumeDownLongPress].

Definition is_thing (a : Action) : bool :=
  match a with AAddThing _ => true | _ => false end.

Definition is_static (a : Addr) (x : Action) : bool :=
  match x with AStatic a' => bool_decide (a' = a) | _ => false end.

(** How many actions of a trace satisfy a test. *)
Fixpoint count_actions (p : Action -> bool) (t : list Action) : nat :=
  match t with
  | [] => 0
  | a :: t' => (if p a then 1 else 0) + count_actions p t'
  end.

(** The four handlers of the volume buttons. *)
Definition is_volume_handler (h : Handler) : bool :=
  match h with
  | VolumeUpClick | VolumeUpLongPress
  | VolumeDownClick | VolumeDownLongPress => true
  | _ => false
  end.

(** The button and the event each lambda is registered for. *)
Definition wired_at (h : Handler) : ButtonId * ButtonEvent :=
  match h with
  | BootClick => (boot_button_, Click)
  | TouchPressDown => (touch_button_, PressDown)
  | TouchPressUp => (touch_button_, PressUp)
  | VolumeUpClick => (volume_up_button_, Click)
  | VolumeUpLongPress => (volume_up_button_, LongPress)
  | VolumeDownClick => (volume_down_button_, Click)
  | VolumeDownLongPress => (volume_down_button_, LongPress)
  end.

(** What a handler does to a volume in [0, 100]. *)
Definition volume_step (h : Handler) (v : Z) : Z :=
  match h with
  | VolumeUpClick => Z.min (v + 10) 100
  | VolumeUpLongPress => 100
  | VolumeDownClick => Z.max (v - 10) 0
  | VolumeDownLongPress => 0
  | _ => v
  end.

Section HandlerSequences.

Variable cfg : BoardConfig.
Variable lang : LangStrings.
Variable hw : Hardware.

Local Open Scope board_scope.

(** Handlers called one after the other. *)
Fixpoint run_handlers (hs : list Handler) : M unit :=
match hs with
| [] => ret tt
| h :: hs' => run_handler cfg lang hw h >> run_handlers hs'
end.

End HandlerSequences.

(** What a running board keeps for its whole life, [w0] being the world
    the constructor returned: the LED static is not constructed (neither
    the constructor nor a handler calls [GetLed]); [display_] and the three
    handles are the constructor's; no cell is allocated or freed; the
    codec, once constructed, is of the class the build selected; and the
    trace has one display construction, one codec construction exactly
    when the codec exists, and no LED construction. *)
Record lifetime (cfg : BoardConfig) (w0 w : World) : Prop := {
  life_led : led w = None;
  life_display : display_ w = display_ w0;
  life_cells : dom (heap w) = dom (heap w0);
  life_bus : display_i2c_bus_ w = display_i2c_bus_ w0;
  life_panel_io : panel_io_ w = panel_io_ w0;
  life_panel : panel_ w = panel_ w0;
  life_codec_class :
    forall c, audio_codec w = Some c ->
              simplex c = AUDIO_I2S_METHOD_SIMPLEX cfg;
  life_codec_once :
    count_actions (is_static StaticAudioCodec) (trace w)
    = match audio_codec w with Some _ => 1 | None => 0 end;
  life_led_never : count_actions (is_static StaticLed) (trace w) = 0;
  life_display_once : count_actions is_new (trace w) = 1
}.

(** The handler sets of a wired board, as one table. *)
Definition wired_table : gmap (ButtonId * ButtonEvent) Handler :=
  list_to_map
    [((boot_button_, Click), BootClick);
     ((touch_button_, PressDown), TouchPressDown);
     ((touch_button_, PressUp), TouchPressUp);
     ((volume_up_button_, Click), VolumeUpClick);
     ((volume_up_button_, LongPress), VolumeUpLongPress);
     ((volume_down_button_, Click), VolumeDownClick);
     ((volume_down_button_, LongPress), VolumeDownLongPress)].

(** An activity that stands before its write holds the address of the
    codec, which exists, and a volume in [0, 100]. *)
Definition pc_ready (w : World) (pc : Pc) : Prop :=
  match pc with
  | AtWrite codec volume =>
      codec = ptr StaticAudioCodec /\ is_Some (audio_codec w) /\
      (0 <= volume <= 100)%Z
  | _ => True
  end.

(** What every schedule of the two click handlers keeps. *)
Definition schedule_inv (hw : Hardware) (a : Activities) (w : World) : Prop :=
  (exists n d, display_ w = ptr (Cell n) /\ heap w !! n = Some d) /\
  (0 <= volume_of hw w <= 100)%Z /\
  pc_ready w (up_pc a) /\ pc_ready w (down_pc a).

(* ===================================================================== *)
(** ** The worlds between the statements of the constructor *)
(* ===================================================================== *)

(** Some handler is wired in a world. *)
Definition some_handler_wired (w : World) : bool :=
  negb (bool_decide (handlers w = ∅)).

(** Running a statement in a world registers a handler. *)
Definition registers (c : M unit) (w : World) : bool :=
  count_actions is_register (trace w)
  <? count_actions is_register (trace (world_of (c w))).

(** In a world where a handler is wired, [display_] points to a live
    display. *)
Definition wired_needs_display (w : World) : bool :=
  implb (some_handler_wired w) (live w (display_ w)).

(** A statement that registers a handler starts in a world where
    [display_] points to a live display, and leaves the pointer and the
    display in place. *)
Definition registration_sees_display (wc : World * M unit) : bool :=
  implb (registers (snd wc) (fst wc))
    (live (fst wc) (display_ (fst wc))
     && bool_decide (display_ (world_of (snd wc (fst wc))) = display_ (fst wc))
     && live (world_of (snd wc (fst wc))) (display_ (fst wc))).

(* ===================================================================== *)
(** ** The board: proof support *)
(* ===================================================================== *)

Ltac unfold_board :=
  cbv [CompactMl307Board CompactMl307Board_body InitializeButtons_body
       InitializeIot_body exec fold_right
       InitializeDisplayI2c InitializeSsd1306Display
       InitializeButtons InitializeIot ESP_ERROR_CHECK ESP_LOGI ESP_LOGE
       driver new register OnClick OnPressDown OnPressUp OnLongPress Button
       AddThing Application bind ret abort fault modify gets].

Ltac case_answer :=
  match goal with
  | |- context [decide (answer ?h ?c = ESP_OK)] =>
      destruct (decide (answer h c = ESP_OK))
  | |- context [decide (answer ?h ?c <> ESP_OK)] =>
      destruct (decide (answer h c <> ESP_OK))
  end.

Ltac bring_up_cases :=
  unfold_board; repeat (case_answer; cbv beta iota);
  try congruence; try contradiction.

Lemma wired_after_display_app seen pre b e h post :
  wired_after_display seen (pre ++ ARegister b e h :: post) = true ->
  seen = true \/ exists n d, ANew n d ∈ pre.
Proof.
  revert seen. induction pre as [|a pre IH]; intros seen; cbn.
  - destruct seen; cbn; [auto | discriminate].
  - destruct (is_register a) eqn:Ha.
    + destruct seen; cbn; [auto | discriminate].
    + intros H. apply IH in H. destruct H as [H | (n & d & H)].
      * destruct seen; [auto|]. right.
        destruct a; try discriminate. eexists _, _. left.
      * right. exists n, d. by right.
Qed.

(** The bring-up from the start of the process, path by path. *)
Lemma bring_up_returned cfg hw w :
  CompactMl307Board cfg hw process_start = Returned tt w ->
  (forall c, fatal_step c = true -> answer hw c = ESP_OK) /\
  (answer hw esp_lcd_panel_init = ESP_OK ->
   answer hw esp_lcd_panel_disp_on_off = ESP_OK) /\
  exists n,
    display_ w = ptr (Cell n) /\
    heap w !! n = Some
      (if decide (answer hw esp_lcd_panel_init = ESP_OK)
       then OledDisplay (Some (io_handle hw)) (Some (panel_handle hw))
              (DISPLAY_WIDTH cfg) (DISPLAY_HEIGHT cfg)
              (DISPLAY_MIRROR_X cfg) (DISPLAY_MIRROR_Y cfg) None
       else NoDisplay) /\
    (forall b e, handlers w !! (b, e) = wired b e) /\
    led w = None /\ audio_codec w = None.
Proof.
  bring_up_cases; intros [= <-].
  all: split; [intros []; cbn; congruence|].
  all: split; [congruence|].
  all: eexists; split; [reflexivity|].
  all: split; [apply lookup_insert_eq|].
  all: split; [|split; reflexivity].
  all: intros [] []; reflexivity.
Qed.

Lemma bring_up_total cfg hw :
  (forall c, fatal_step c = true -> answer hw c = ESP_OK) ->
  (answer hw esp_lcd_panel_init = ESP_OK ->
   answer hw esp_lcd_panel_disp_on_off = ESP_OK) ->
  exists w, CompactMl307Board cfg hw process_start = Returned tt w.
Proof.
  intros Hf Hon.
  pose proof (Hf i2c_new_master_bus eq_refl).
  pose proof (Hf esp_lcd_new_panel_io_i2c_v2 eq_refl).
  pose proof (Hf esp_lcd_new_panel_ssd1306 eq_refl).
  pose proof (Hf esp_lcd_panel_reset eq_refl).
  bring_up_cases; try (eexists; reflexivity).
  all: exfalso; auto.
Qed.

Ltac unfold_handler :=
  cbv [fire run_handler GetAudioCodec GetDisplay GetLed output_volume
       SetOutputVolume ShowNotification Application bind ret modify gets].

(** The two clamps of the click handlers, on the range the claim is about. *)
Lemma clamp_up v :
  (0 <= v <= 100)%Z ->
  (if (100 <? Int.wrap (v + 10))%Z then 100%Z else Int.wrap (v + 10))
  = Z.min (v + 10) 100.
Proof.
  intros Hv. rewrite Int.wrap_small by (unfold Int.in_range; lia).
  destruct (Z.ltb_spec 100 (v + 10)); lia.
Qed.

Lemma clamp_down v :
  (0 <= v <= 100)%Z ->
  (if (Int.wrap (v - 10) <? 0)%Z then 0%Z else Int.wrap (v - 10))
  = Z.max (v - 10) 0.
Proof.
  intros Hv. rewrite Int.wrap_small by (unfold Int.in_range; lia).
  destruct (Z.ltb_spec (v - 10) 0); lia.
Qed.

Lemma set_and_show cfg hw (w : World) n d v' text :
  display_ w = ptr (Cell n) ->
  heap w !! n = Some d ->
  sets_and_shows hw w
    (bind (GetAudioCodec cfg hw) (fun codec =>
       bind (SetOutputVolume codec v') (fun _ =>
         bind GetDisplay (fun display => ShowNotification display text))) w)
    n v' text.
Proof.
  intros Hp Hd. unfold sets_and_shows. unfold_handler.
  destruct (audio_codec w) as [c|] eqn:Hc;
    repeat (cbn; rewrite ?Hc, ?Hp, ?Hd).
  all: eexists; split; [reflexivity|]; cbn.
  all: split; [reflexivity|].
  all: split; [by rewrite lookup_insert_eq|].
  all: split; [apply last_snoc|].
  all: split; [|done].
  all: rewrite !elem_of_app, !list_elem_of_singleton; auto.
Qed.

Lemma read_set_and_show cfg hw (w : World) n d (f : Z -> Z) (text : Z -> string) :
  display_ w = ptr (Cell n) ->
  heap w !! n = Some d ->
  sets_and_shows hw w
    (bind (GetAudioCodec cfg hw) (fun codec =>
       bind (output_volume codec) (fun v =>
         bind (SetOutputVolume codec (f v)) (fun _ =>
           bind GetDisplay (fun display =>
             ShowNotification display (text (f v)))))) w)
    n (f (volume_of hw w)) (text (f (volume_of hw w))).
Proof.
  intros Hp Hd. unfold sets_and_shows, volume_of. unfold_handler.
  destruct (audio_codec w) as [c|] eqn:Hc;
    repeat (cbn; rewrite ?Hc, ?Hp, ?Hd).
  all: eexists; split; [reflexivity|]; cbn.
  all: split; [reflexivity|].
  all: split; [by rewrite lookup_insert_eq|].
  all: split; [apply last_snoc|].
  all: split; [|done].
  all: rewrite !elem_of_app, !list_elem_of_singleton; auto.
Qed.

(** Every handler returns in a world whose [display_] points to a live
    display, and leaves the pointer, the variant of the display and the
    handler sets as they were. *)
Lemma run_handler_returns cfg lang hw h (w : World) n d :
  display_ w = ptr (Cell n) ->
  heap w !! n = Some d ->
  exists w' d',
    run_handler cfg lang hw h w = Returned tt w' /\
    display_ w' = ptr (Cell n) /\
    heap w' !! n = Some d' /\
    is_null_display d' = is_null_display d /\
    handlers w' = handlers w.
Proof.
  intros Hp Hd.
  assert (Hshow : forall r v' text,
    sets_and_shows hw w r n v' text ->
    exists w' d', r = Returned tt w' /\ display_ w' = ptr (Cell n) /\
      heap w' !! n = Some d' /\
      is_null_display d' = is_null_display d /\ handlers w' = handlers w).
  { intros r v' text (w' & -> & _ & Hh & _ & _ & Hp' & Hhs).
    exists w', (show_notification text d).
    rewrite Hh, Hd, Hp', Hp. repeat split; auto. by destruct d. }
  destruct h.
  1-3: by (eexists _, d; split; [reflexivity|]).
  - eapply Hshow.
    exact (read_set_and_show cfg hw w n d
             (fun v => if (100 <? Int.wrap (v + 10))%Z then 100%Z
                       else Int.wrap (v + 10))
             (fun v' => VOLUME lang +:+ Int.to_string v') Hp Hd).
  - eapply Hshow. exact (set_and_show cfg hw w n d 100 (MAX_VOLUME lang) Hp Hd).
  - eapply Hshow.
    exact (read_set_and_show cfg hw w n d
             (fun v => if (Int.wrap (v - 10) <? 0)%Z then 0%Z
                       else Int.wrap (v - 10))
             (fun v' => VOLUME lang +:+ Int.to_string v') Hp Hd).
  - eapply Hshow. exact (set_and_show cfg hw w n d 0 (MUTED lang) Hp Hd).
Qed.

Lemma fire_wired cfg lang hw b e (w : World) :
  board_inv w ->
  fire cfg lang hw b e w =
    match wired b e with
    | Some h => run_handler cfg lang hw h w
    | None => Returned tt w
    end.
Proof. intros [_ Hh]. unfold fire. by rewrite Hh. Qed.

Lemma fire_inv cfg lang hw b e (w w' : World) :
  board_inv w ->
  fire cfg lang hw b e w = Returned tt w' ->
  board_inv w' /\ display_ w' = display_ w.
Proof.
  intros Hinv. rewrite (fire_wired _ _ _ _ _ _ Hinv).
  destruct Hinv as [(n & d & Hp & Hd) Hh].
  destruct (wired b e) as [h|].
  - destruct (run_handler_returns cfg lang hw h w n d Hp Hd)
      as (w1 & d' & -> & Hp' & Hd' & _ & Hh').
    intros [= <-]. split; [|congruence]. split; [eauto|].
    intros b0 e0. rewrite Hh'. apply Hh.
  - intros [= <-]. split; [|done]. split; eauto.
Qed.

Lemma running_inv cfg lang hw (w : World) :
  running cfg lang hw w -> board_inv w.
Proof.
  induction 1 as [w Hb | w b e w' _ IH Hf].
  - apply bring_up_returned in Hb as (_ & _ & n & Hp & Hd & Hh & _).
    split; eauto.
  - by apply (fire_inv cfg lang hw b e w w').
Qed.

(** In a running board no button event faults or aborts. *)
Lemma fire_returns cfg lang hw b e (w : World) :
  running cfg lang hw w ->
  exists w', fire cfg lang hw b e w = Returned tt w'.
Proof.
  intros Hr. pose proof (running_inv _ _ _ _ Hr) as Hinv.
  rewrite (fire_wired _ _ _ _ _ _ Hinv).
  destruct Hinv as [(n & d & Hp & Hd) _].
  destruct (wired b e) as [h|]; [|eauto].
  destruct (run_handler_returns cfg lang hw h w n d Hp Hd) as (w' & _ & -> & _).
  eauto.
Qed.

(** The display variant chosen by the bring-up is the one every later
    world has, behind the same pointer. *)
Lemma running_display cfg lang hw (w0 w : World) n d0 :
  CompactMl307Board cfg hw process_start = Returned tt w0 ->
  display_ w0 = ptr (Cell n) ->
  heap w0 !! n = Some d0 ->
  running cfg lang hw w ->
  display_ w = ptr (Cell n) /\
  exists d, heap w !! n = Some d /\ is_null_display d = is_null_display d0.
Proof.
  intros Hb Hp0 Hd0. induction 1 as [w Hb' | w b e w' Hr IH Hf].
  - assert (w = w0) as -> by congruence. eauto.
  - destruct IH as (Hp & d & Hd & Hk).
    pose proof (running_inv _ _ _ _ Hr) as Hinv.
    rewrite (fire_wired _ _ _ _ _ _ Hinv) in Hf.
    destruct (wired b e) as [h|].
    + destruct (run_handler_returns cfg lang hw h w n d Hp Hd)
        as (w1 & d' & Hrun & Hp' & Hd' & Hk' & _).
      assert (w' = w1) as -> by congruence.
      split; [done|]. exists d'. split; [done|]. congruence.
    + injection Hf as <-. eauto.
Qed.

Lemma trace_emit a (w : World) : trace (emit a w) = trace w ++ [a].
Proof. reflexivity. Qed.

Lemma set_heap_id (w : World) n d :
  heap w !! n = Some d -> set_heap (insert n d) w = w.
Proof.
  intros Hd. destruct w; cbn in *. unfold set_heap; cbn.
  by rewrite insert_id.
Qed.

Lemma bring_up_order cfg hw :
  wired_after_display false
    (trace (world_of (CompactMl307Board cfg hw process_start))) = true.
Proof. bring_up_cases; reflexivity. Qed.

Lemma running_booted cfg lang hw (w : World) :
  running cfg lang hw w ->
  exists w0, CompactMl307Board cfg hw process_start = Returned tt w0.
Proof. induction 1; eauto. Qed.

Lemma clamped_range s v :
  (0 <= v <= 100)%Z -> (0 <= clamped s v <= 100)%Z.
Proof. destruct s; cbn; lia. Qed.

(** A click of a volume button, on a volume in [0, 100]. *)
Lemma click_spec cfg lang hw s (w : World) :
  running cfg lang hw w ->
  (0 <= volume_of hw w <= 100)%Z ->
  exists n,
    display_ w = ptr (Cell n) /\
    sets_and_shows hw w (fire cfg lang hw (volume_button s) Click w) n
      (clamped s (volume_of hw w))
      (VOLUME lang +:+ Int.to_string (clamped s (volume_of hw w))).
Proof.
  intros Hr Hrange.
  pose proof (running_inv _ _ _ _ Hr) as Hinv.
  destruct (Hinv) as [(n & d & Hp & Hd) _].
  rewrite (fire_wired _ _ _ _ _ _ Hinv).
  exists n. split; [done|]. destruct s; cbn [volume_button wired clamped].
  - rewrite <- (clamp_up _ Hrange).
    exact (read_set_and_show cfg hw w n d
      (fun v => if (100 <? Int.wrap (v + 10))%Z then 100%Z
                else Int.wrap (v + 10))
      (fun v' => VOLUME lang +:+ Int.to_string v') Hp Hd).
  - rewrite <- (clamp_down _ Hrange).
    exact (read_set_and_show cfg hw w n d
      (fun v => if (Int.wrap (v - 10) <? 0)%Z then 0%Z
                else Int.wrap (v - 10))
      (fun v' => VOLUME lang +:+ Int.to_string v') Hp Hd).
Qed.

(** The three statements of a click handler, run back to back, are the
    handler. *)
Lemma statements_are_handler cfg lang hw s schedule (w w' : World) :
  run_handler cfg lang hw (click_handler s) w = Returned tt w' ->
  run_schedule cfg lang hw (s :: s :: s :: schedule) both_ready w
  = run_schedule cfg lang hw schedule both_ready w'.
Proof.
  cbn [run_schedule]. unfold schedule_step. unfold_handler.
  destruct s; cbv [click_handler statement both_ready up_pc down_pc bind ret
                   GetAudioCodec GetDisplay output_volume SetOutputVolume
                   ShowNotification gets].
  all: destruct (audio_codec w) as [c|] eqn:Hc; repeat (cbn; rewrite ?Hc).
  all: destruct (display_ w) as [|[| |n]]; try discriminate.
  all: match goal with
       | |- context [heap ?x !! ?k] => destruct (heap x !! k)
       end; try discriminate.
  all: by intros [= <-].
Qed.

(** Clicks run one after the other compose their steps. *)
Lemma serial_clicks cfg lang hw clicks (w : World) :
  running cfg lang hw w ->
  (0 <= volume_of hw w <= 100)%Z ->
  exists w',
    run_schedule cfg lang hw (serial clicks) both_ready w
    = Returned both_ready w' /\
    running cfg lang hw w' /\
    volume_of hw w' = fold_left (fun v s => clamped s v) clicks (volume_of hw w).
Proof.
  revert w. induction clicks as [|s clicks IH]; intros w Hr Hrange.
  - exists w. by cbn.
  - destruct (click_spec cfg lang hw s w Hr Hrange)
      as (n & _ & w1 & Hfire & Hvol & _).
    assert (Hr1 : running cfg lang hw w1) by (eapply running_fire; eauto).
    destruct (IH w1 Hr1) as (w' & Hrun & Hr' & Hvol').
    { rewrite Hvol. by apply clamped_range. }
    exists w'. split; [|split; [done|]].
    + rewrite (fire_wired _ _ _ _ _ _ (running_inv _ _ _ _ Hr)) in Hfire.
      cbn [serial flat_map app].
      rewrite (statements_are_handler cfg lang hw s _ w w1); [done|].
      by destruct s.
    + cbn [fold_left]. by rewrite Hvol', Hvol.
Qed.

(** The two accessors with a function-local static, in any world. *)
Lemma GetLed_spec cfg (w : World) :
  value (GetLed cfg w) = Some (ptr StaticLed) /\
  idempotent (GetLed cfg) w /\
  constructs (GetLed cfg) w = negb (live w (ptr StaticLed)).
Proof.
  unfold idempotent, constructs, GetLed. cbn [live].
  destruct (led w) as [l|] eqn:Hl; cbn; rewrite ?Hl.
  - repeat split. eexists _, _. split; [reflexivity|]. by rewrite Hl.
  - repeat split. eexists _, _. split; [reflexivity|]. done.
Qed.

Lemma GetAudioCodec_spec cfg hw (w : World) :
  value (GetAudioCodec cfg hw w) = Some (ptr StaticAudioCodec) /\
  idempotent (GetAudioCodec cfg hw) w /\
  constructs (GetAudioCodec cfg hw) w = negb (live w (ptr StaticAudioCodec)).
Proof.
  unfold idempotent, constructs, GetAudioCodec. cbn [live].
  destruct (audio_codec w) as [c|] eqn:Hc; cbn; rewrite ?Hc.
  - repeat split. eexists _, _. split; [reflexivity|]. by rewrite Hc.
  - repeat split. eexists _, _. split; [reflexivity|]. done.
Qed.

Lemma forallb_lookup {A} (f : A -> bool) (l : list A) i x :
  forallb f l = true -> l !! i = Some x -> f x = true.
Proof.
  revert i. induction l as [|a l IH]; intros i Hall Hi; [done|].
  cbn in Hall. apply andb_prop in Hall as [Ha Hl].
  destruct i as [|i]; cbn in Hi; [by injection Hi as <- | eauto].
Qed.

Lemma forallb_zip_lookup {A B} (f : A * B -> bool) (l1 : list A) (l2 : list B)
    i x y :
  forallb f (zip l1 l2) = true ->
  l1 !! i = Some x -> l2 !! i = Some y -> f (x, y) = true.
Proof.
  revert l2 i. induction l1 as [|a l1 IH]; intros [|b l2] i Hall H1 H2;
    try done.
  cbn in Hall. apply andb_prop in Hall as [Ha Hl].
  destruct i as [|i]; cbn in H1, H2.
  - injection H1 as <-. by injection H2 as <-.
  - eauto.
Qed.

Ltac unfold_checkpoints :=
  cbv [checkpoints statements flat_map app zip zip_with forallb
       CompactMl307Board CompactMl307Board_body InitializeButtons_body
       InitializeIot_body exec fold_right
       InitializeDisplayI2c InitializeSsd1306Display
       InitializeButtons InitializeIot ESP_ERROR_CHECK ESP_LOGI ESP_LOGE
       driver new register OnClick OnPressDown OnPressUp OnLongPress Button
       AddThing Application bind ret abort fault modify gets].

(** The checkpoints of the constructor, on every path. *)
Lemma constructor_checkpoints cfg hw :
  forallb wired_needs_display
    (checkpoints (statements (CompactMl307Board_body cfg hw)) process_start)
  = true /\
  forallb registration_sees_display
    (zip (checkpoints (statements (CompactMl307Board_body cfg hw)) process_start)
         (statements (CompactMl307Board_body cfg hw)))
  = true /\
  (returned (CompactMl307Board cfg hw process_start) = true ->
   last (checkpoints (statements (CompactMl307Board_body cfg hw)) process_start)
   = Some (world_of (CompactMl307Board cfg hw process_start))).
Proof.
  unfold_checkpoints. repeat (case_answer; cbv beta iota);
    try congruence; try contradiction.
  all: split; [vm_compute; reflexivity|].
  all: split; [vm_compute; reflexivity|].
  all: first [discriminate | reflexivity | intros _; reflexivity].
Qed.

Lemma wired_wired_at h : wired (fst (wired_at h)) (snd (wired_at h)) = Some h.
Proof. by destruct h. Qed.

(** A running board stays running through a handler. *)
Lemma run_handler_running cfg lang hw h (w w' : World) :
  running cfg lang hw w ->
  run_handler cfg lang hw h w = Returned tt w' ->
  running cfg lang hw w'.
Proof.
  intros Hr Hh.
  apply (running_fire cfg lang hw w (fst (wired_at h)) (snd (wired_at h)) w' Hr).
  by rewrite (fire_wired _ _ _ _ _ _ (running_inv _ _ _ _ Hr)), wired_wired_at.
Qed.

Lemma volume_step_range h v :
  (0 <= v <= 100)%Z -> (0 <= volume_step h v <= 100)%Z.
Proof. destruct h; cbn; lia. Qed.

(** The volume a handler leaves, on a volume in [0, 100]. *)
Lemma handler_volume cfg lang hw h (w : World) :
  running cfg lang hw w ->
  (0 <= volume_of hw w <= 100)%Z ->
  exists w',
    run_handler cfg lang hw h w = Returned tt w' /\
    volume_of hw w' = volume_step h (volume_of hw w).
Proof.
  intros Hr Hrange.
  destruct (running_inv _ _ _ _ Hr) as [(n & d & Hp & Hd) _].
  destruct h; cbn [volume_step].
  1-3: by eexists.
  - destruct (click_spec cfg lang hw Up w Hr Hrange) as (? & _ & w' & Hf & Hv & _).
    rewrite (fire_wired _ _ _ _ _ _ (running_inv _ _ _ _ Hr)) in Hf. eauto.
  - destruct (set_and_show cfg hw w n d 100 (MAX_VOLUME lang) Hp Hd)
      as (w' & Hf & Hv & _). eauto.
  - destruct (click_spec cfg lang hw Down w Hr Hrange) as (? & _ & w' & Hf & Hv & _).
    rewrite (fire_wired _ _ _ _ _ _ (running_inv _ _ _ _ Hr)) in Hf. eauto.
  - destruct (set_and_show cfg hw w n d 0 (MUTED lang) Hp Hd)
      as (w' & Hf & Hv & _). eauto.
Qed.

(** With the codec starting in [0, 100], the volume of a running board
    is in [0, 100] in every world: no handler ever adds to or subtracts
    from a volume near the bounds of an [int]. *)
Lemma running_volume_range cfg lang hw (w : World) :
  (0 <= codec_initial_volume hw <= 100)%Z ->
  running cfg lang hw w ->
  (0 <= volume_of hw w <= 100)%Z.
Proof.
  intros Hinit. induction 1 as [w Hb | w b e w' Hr IH Hf].
  - apply bring_up_returned in Hb as (_ & _ & n & _ & _ & _ & _ & Hc).
    unfold volume_of. by rewrite Hc.
  - rewrite (fire_wired _ _ _ _ _ _ (running_inv _ _ _ _ Hr)) in Hf.
    destruct (wired b e) as [h|]; [|by injection Hf as <-].
    destruct (handler_volume cfg lang hw h w Hr IH) as (w1 & Hrun & Hv).
    assert (w' = w1) as -> by congruence.
    rewrite Hv. by apply volume_step_range.
Qed.

(* ===================================================================== *)
(** ** The button state machine: proof support *)
(* ===================================================================== *)

Section ButtonMachineFacts.

Import ButtonMachine.

Variable cfg : ButtonConfig.

Lemma final_app m a b : final cfg m (a ++ b) = final cfg (final cfg m a) b.
Proof. apply fold_left_app. Qed.

Lemma outputs_app m a b :
  outputs cfg m (a ++ b) = outputs cfg m a ++ outputs cfg (final cfg m a) b.
Proof.
  revert m. induction a as [|x a IH]; intros m; cbn; [done|].
  by rewrite IH.
Qed.

Lemma events_app m a b :
  events cfg m (a ++ b) = events cfg m a ++ events cfg (final cfg m a) b.
Proof. unfold events. by rewrite outputs_app, concat_app. Qed.

Lemma step_line m raw : line (fst (step cfg m raw)) = debounce cfg (line m) raw.
Proof.
  unfold step.
  by destruct (transition cfg (state m) (held m)
                 (level (debounce cfg (line m) raw))) as [[s h] evs].
Qed.

(** The machine reacts to the debounced levels only. *)
Lemma events_react m raws :
  events cfg m raws
  = react cfg (state m) (held m) (levels cfg (line m) raws).
Proof.
  revert m. induction raws as [|raw raws IH]; intros m; [done|].
  unfold events in *. cbn [outputs levels react concat].
  rewrite IH, step_line. unfold step.
  by destruct (transition cfg (state m) (held m)
                 (level (debounce cfg (line m) raw))) as [[s h] evs].
Qed.

(** *** Reactions to a steady level *)

Lemma react_idle h n rest :
  react cfg Idle h (repeat false n ++ rest) = react cfg Idle (if n is 0 then h else 0) rest.
Proof.
  revert h. induction n as [|n IH]; intros h; [done|].
  cbn [repeat app react transition]. rewrite IH. by destruct n.
Qed.

Lemma react_idle_held h lv : react cfg Idle h lv = react cfg Idle 0 lv.
Proof. by destruct lv as [|[] lv]. Qed.

Lemma react_pressed h n rest :
  h + n <= long_press_threshold cfg ->
  react cfg Pressed h (repeat true n ++ rest) = react cfg Pressed (h + n) rest.
Proof.
  revert h. induction n as [|n IH]; intros h Hn.
  - cbn. by rewrite Nat.add_0_r.
  - cbn [repeat app react transition].
    destruct (Nat.ltb_spec (long_press_threshold cfg) (S h)); [lia|].
    cbn [app]. rewrite IH by lia. f_equal. lia.
Qed.

Lemma react_long_held h n rest :
  react cfg LongPressFired h (repeat true n ++ rest)
  = react cfg LongPressFired (h + n) rest.
Proof.
  revert h. induction n as [|n IH]; intros h.
  - cbn. by rewrite Nat.add_0_r.
  - cbn [repeat app react transition]. rewrite IH. f_equal. lia.
Qed.

(** A press held for [h] ticks after the entry into [Pressed]. *)
Lemma react_press h rest :
  react cfg Idle 0 (repeat true (S h) ++ rest)
  = if long_press_threshold cfg <? h
    then PressDown :: LongPress :: react cfg LongPressFired h rest
    else PressDown :: react cfg Pressed h rest.
Proof.
  cbn [repeat app react transition].
  destruct (Nat.ltb_spec (long_press_threshold cfg) h) as [Hlt|Hle].
  - replace h with (long_press_threshold cfg
                    + S (h - S (long_press_threshold cfg))) at 1 by lia.
    rewrite repeat_app, <- app_assoc.
    rewrite react_pressed by lia. cbn [repeat app react transition].
    destruct (Nat.ltb_spec (long_press_threshold cfg)
                (S (0 + long_press_threshold cfg))); [|lia].
    cbn. rewrite react_long_held. do 3 f_equal. lia.
  - cbn. by rewrite react_pressed by lia.
Qed.

(** *** The shape of the event stream *)

Lemma press_cycles_cons c evs :
  c = click_cycle \/ c = long_press_cycle ->
  press_cycles evs -> press_cycles (c ++ evs).
Proof.
  intros Hc (cycles & open & -> & Hall & Hopen).
  exists (c :: cycles), open. cbn. rewrite <- app_assoc. auto.
Qed.

Lemma react_completes s h lv : completes s (react cfg s h lv).
Proof.
  revert s h. induction lv as [|a lv IH]; intros s h.
  - destruct s; cbn; [exists [], [] | exists [], [PressDown]
                     | exists [], [PressDown; LongPress]]; cbn; auto.
  - destruct s, a; cbn [react transition].
    + apply (IH Pressed).
    + apply (IH Idle).
    + destruct (long_press_threshold cfg <? S h).
      * apply (IH LongPressFired).
      * apply (IH Pressed).
    + apply (press_cycles_cons click_cycle); [auto|]. apply (IH Idle).
    + apply (IH LongPressFired).
    + apply (press_cycles_cons long_press_cycle); [auto|]. apply (IH Idle).
Qed.

End ButtonMachineFacts.

Section ButtonMachineDebounce.

Import ButtonMachine.

Variable cfg : ButtonConfig.

Lemma final_snoc m raws raw :
  final cfg m (raws ++ [raw]) = fst (step cfg (final cfg m raws) raw).
Proof. by rewrite final_app. Qed.

Lemma outputs_snoc m raws raw :
  outputs cfg m (raws ++ [raw])
  = outputs cfg m raws ++ [snd (step cfg (final cfg m raws) raw)].
Proof. by rewrite outputs_app. Qed.

Lemma repeat_snoc {A} (a : A) n : repeat a n ++ [a] = repeat a (S n).
Proof. symmetry. apply repeat_cons. Qed.

(** *** What holds after any sequence of samples from power-on *)

Lemma settled_step raws outs m raw :
  settled cfg raws outs m ->
  settled cfg (raws ++ [raw]) (outs ++ [snd (step cfg m raw)]) (fst (step cfg m raw)).
Proof.
  intros [Hs [p Hp] Hh].
  destruct m as [[lvl pend] s h]; cbn in *. subst lvl.
  unfold step, debounce; cbn [line level pending state held].
  destruct s, raw; cbn [Bool.eqb negb transition fst snd level].
  all: repeat match goal with
       | |- context [?a <=? ?b] => destruct (Nat.leb_spec a b)
       | |- context [?a <? ?b] => destruct (Nat.ltb_spec a b)
       end; cbn [Bool.eqb negb transition fst snd level].
  all: split; cbn [line level pending state held negb repeat];
    try done; try discriminate.
  all: try (eexists; symmetry; apply app_nil_r).
  all: try (exists p; rewrite Hp, <- app_assoc; cbn [negb];
            by rewrite <- repeat_cons).
  all: intros _; split; [lia|].
  - by exists outs.
  - destruct (Hh eq_refl) as (_ & o & ->). exists o.
    rewrite <- app_assoc. cbn [app]. by rewrite <- repeat_cons.
  - destruct (Hh eq_refl) as (_ & o & ->). exists o.
    rewrite <- app_assoc. cbn [app]. by rewrite <- repeat_cons.
Qed.

Lemma settled_final raws :
  settled cfg raws (outputs cfg power_on raws) (final cfg power_on raws).
Proof.
  induction raws as [|raw raws IH] using rev_ind.
  - split; cbn; [done | by exists [] | discriminate].
  - rewrite final_snoc, outputs_snoc. by apply settled_step.
Qed.

(** A [PressDown], a [PressUp] or a [Click] is fired by the sample that
    completes a run of samples at the new level at least as long as the
    window. *)
Lemma accepted_after_window raws raw e :
  e ∈ fired cfg raws raw ->
  e <> LongPress ->
  raw = bool_decide (e = PressDown) /\
  exists p n,
    raws ++ [raw] = p ++ repeat raw n /\ debounce_window cfg <= n /\ 0 < n.
Proof.
  unfold fired. intros He Hk.
  destruct (settled_final raws) as [Hs [p Hp] _].
  destruct (final cfg power_on raws) as [[lvl pend] s h]; cbn in *. subst lvl.
  revert He. unfold step, debounce; cbn [line level pending state held].
  destruct s, raw; cbn [Bool.eqb negb transition fst snd level].
  all: repeat match goal with
       | |- context [?a <=? ?b] => destruct (Nat.leb_spec a b)
       | |- context [?a <? ?b] => destruct (Nat.ltb_spec a b)
       end; cbn [Bool.eqb negb transition fst snd level].
  all: rewrite ?elem_of_cons, ?elem_of_nil; intros He.
  all: try (exfalso; intuition congruence).
  all: split; [by repeat destruct He as [-> | He]|].
  all: exists p, (S pend); rewrite Hp, <- app_assoc, repeat_snoc; cbn [negb].
  all: repeat split; try done; lia.
Qed.

(** A [LongPress] is fired [long_press_threshold + 1] ticks after the
    [PressDown] of the same press, with no event in between. *)
Lemma long_press_after_threshold raws raw :
  LongPress ∈ fired cfg raws raw ->
  exists o,
    outputs cfg power_on raws
    = o ++ [PressDown] :: repeat [] (long_press_threshold cfg).
Proof.
  unfold fired. intros He.
  destruct (settled_final raws) as [Hs _ Hh].
  destruct (final cfg power_on raws) as [[lvl pend] s h]; cbn in *. subst lvl.
  revert He. unfold step, debounce; cbn [line level pending state held].
  destruct s, raw; cbn [Bool.eqb negb transition fst snd level].
  all: repeat match goal with
       | |- context [?a <=? ?b] => destruct (Nat.leb_spec a b)
       | |- context [?a <? ?b] => destruct (Nat.ltb_spec a b)
       end; cbn [Bool.eqb negb transition fst snd level].
  all: rewrite ?elem_of_cons, ?elem_of_nil; intros He.
  all: try (exfalso; intuition congruence).
  all: destruct (Hh eq_refl) as (Hle & o & ->); exists o.
  all: by replace h with (long_press_threshold cfg) by lia.
Qed.

End ButtonMachineDebounce.

Section ButtonMachineGlitch.

Import ButtonMachine.

Variable cfg : ButtonConfig.

(** A sample at the other level, not yet accepted, moves the states as a
    sample at the accepted level does. *)
Lemma step_glitch m m' :
  agree m m' ->
  S (pending (line m)) < debounce_window cfg ->
  agree (fst (step cfg m (negb (level (line m)))))
        (fst (step cfg m' (level (line m)))) /\
  snd (step cfg m (negb (level (line m)))) = snd (step cfg m' (level (line m))) /\
  level (line (fst (step cfg m (negb (level (line m)))))) = level (line m) /\
  pending (line (fst (step cfg m (negb (level (line m))))))
  = S (pending (line m)).
Proof.
  destruct m as [[lvl pend] s h], m' as [[lvl' pend'] s' h'].
  intros (Hl & Hs & Hh) Hp; cbn in *. subst lvl' s' h'.
  unfold step, debounce; cbn [line level pending state held].
  rewrite Bool.eqb_reflx.
  destruct (Nat.leb_spec (debounce_window cfg) (S pend)); [lia|].
  replace (Bool.eqb (negb lvl) lvl) with false by by destruct lvl.
  cbn [level].
  by destruct (transition cfg s h lvl) as [[s1 h1] evs].
Qed.

Lemma glitch_run m m' k :
  agree m m' ->
  pending (line m) + k < debounce_window cfg ->
  outputs cfg m (repeat (negb (level (line m))) k)
  = outputs cfg m' (repeat (level (line m)) k) /\
  agree (final cfg m (repeat (negb (level (line m))) k))
        (final cfg m' (repeat (level (line m)) k)) /\
  level (line (final cfg m (repeat (negb (level (line m))) k)))
  = level (line m).
Proof.
  revert m m'. induction k as [|k IH]; intros m m' Hag Hp; [done|].
  destruct (step_glitch m m' Hag) as (Hag1 & Hout & Hlvl & Hpend); [lia|].
  cbn [repeat outputs final fold_left].
  specialize (IH _ _ Hag1). rewrite Hlvl, Hpend in IH.
  destruct IH as (Ho & Hf & Hl); [lia|].
  unfold final in *. by rewrite Hout, Ho.
Qed.

(** A change of the raw level that lasts less than the debounce window
    is invisible: the machine fires what it would have fired, and ends
    where it would have ended, had the line kept its level. *)
Lemma glitch_invisible m k :
  pending (line m) = 0 ->
  k < debounce_window cfg ->
  outputs cfg m (repeat (negb (level (line m))) k ++ [level (line m)])
  = outputs cfg m (repeat (level (line m)) (S k)) /\
  final cfg m (repeat (negb (level (line m))) k ++ [level (line m)])
  = final cfg m (repeat (level (line m)) (S k)).
Proof.
  intros Hp Hk.
  destruct (glitch_run m m k) as (Ho & (Hl & Hs & Hh) & Hlvl);
    [done | lia |].
  rewrite <- repeat_snoc, !outputs_app, !final_app, Ho.
  set (m1 := final cfg m (repeat (negb (level (line m))) k)) in *.
  set (m2 := final cfg m (repeat (level (line m)) k)) in *.
  assert (Hstep : step cfg m1 (level (line m)) = step cfg m2 (level (line m))).
  { destruct m1 as [[l1 p1] s1 h1], m2 as [[l2 p2] s2 h2]; cbn in *.
    subst. unfold step, debounce; cbn. by rewrite Bool.eqb_reflx. }
  cbn. by rewrite Hstep.
Qed.

Lemma released_steady n :
  outputs cfg power_on (repeat false n) = repeat [] n /\
  final cfg power_on (repeat false n) = power_on.
Proof.
  induction n as [|n [IHo IHf]]; [done|].
  rewrite <- repeat_snoc, outputs_app, final_app, IHo, IHf.
  split; [|done]. rewrite <- (repeat_snoc []). done.
Qed.

Lemma concat_repeat_nil {A} n : concat (repeat (@nil A) n) = [].
Proof. induction n; done. Qed.

Lemma silent_app a b :
  events cfg power_on a = [] ->
  final cfg power_on a = power_on ->
  events cfg power_on (a ++ b) = events cfg power_on b /\
  final cfg power_on (a ++ b) = final cfg power_on b.
Proof. intros He Hf. by rewrite events_app, final_app, He, Hf. Qed.

(** Bursts of asserted samples, each shorter than the window, fire no
    event and leave the machine as it was at power-on. *)
Lemma noise_silent bursts :
  Forall (fun b => fst b < debounce_window cfg) bursts ->
  events cfg power_on (noise bursts) = [] /\
  final cfg power_on (noise bursts) = power_on.
Proof.
  induction 1 as [|[k r] bursts Hk _ [IHe IHf]]; [done|].
  unfold noise in *. cbn [map concat fst snd] in *.
  change (repeat false (S r)) with ([false] ++ repeat false r).
  rewrite (app_assoc (repeat true k) [false]), <- app_assoc.
  destruct (glitch_invisible power_on k eq_refl Hk) as [Ho Hf].
  destruct (released_steady (S k)) as [Hso Hsf].
  destruct (released_steady r) as [Hro Hrf].
  cbn [line power_on level negb] in Ho, Hf.
  destruct (silent_app (repeat true k ++ [false])
              (repeat false r ++
               concat (map (fun b => repeat true (fst b) ++ repeat false (S (snd b)))
                         bursts))) as [-> ->].
  { unfold events. by rewrite Ho, Hso, concat_repeat_nil. }
  { by rewrite Hf. }
  destruct (silent_app (repeat false r)
              (concat (map (fun b => repeat true (fst b) ++ repeat false (S (snd b)))
                         bursts))) as [-> ->]; [|done|done].
  unfold events. by rewrite Hro, concat_repeat_nil.
Qed.

End ButtonMachineGlitch.

(* ===================================================================== *)
(** ** The claims *)
(* ===================================================================== *)

Section ButtonMachineClaims.

Import ButtonMachine.

(** C1: for every sequence of raw samples from power-on, the events are
    a sequence of complete press-release cycles, each one either
    [PressDown; PressUp; Click] or [PressDown; LongPress; PressUp], then
    possibly a press still in progress: [PressDown] and [PressUp] come
    in pairs, and each cycle has exactly one of [Click] and [LongPress].
    Every press of every trace is classified by its own length: after
    any samples [before] that leave the debounced line released, a press
    whose debounced line stays asserted [h] ticks after [Pressed] was
    entered adds, to the events of [before], one click cycle when [h] is
    at most the threshold (so for every shorter press) and one
    long-press cycle when [h] is above it; and while the line stays
    asserted, however long, nothing follows the one [LongPress]. *)
Theorem press_cycle_exclusive (cfg : ButtonConfig) :
  (forall raws, press_cycles (events cfg power_on raws)) /\
  (forall before raws idle h,
     level (line (final cfg power_on before)) = false ->
     levels cfg (line (final cfg power_on before)) raws
     = repeat false idle ++ repeat true (S h) ++ [false] ->
     (h <= long_press_threshold cfg ->
      events cfg power_on (before ++ raws)
      = events cfg power_on before ++ click_cycle) /\
     (long_press_threshold cfg < h ->
      events cfg power_on (before ++ raws)
      = events cfg power_on before ++ long_press_cycle)) /\
  (forall before raws idle h,
     level (line (final cfg power_on before)) = false ->
     levels cfg (line (final cfg power_on before)) raws
     = repeat false idle ++ repeat true (S h) ->
     (h <= long_press_threshold cfg ->
      events cfg power_on (before ++ raws)
      = events cfg power_on before ++ [PressDown]) /\
     (long_press_threshold cfg < h ->
      events cfg power_on (before ++ raws)
      = events cfg power_on before ++ [PressDown; LongPress])).
Proof.
  assert (Hidle : forall before,
    level (line (final cfg power_on before)) = false ->
    state (final cfg power_on before) = Idle).
  { intros before Hl.
    destruct (settled_final cfg before) as [Hs _ _]. rewrite Hl in Hs.
    by destruct (state (final cfg power_on before)). }
  split; [|split].
  - intros raws. rewrite events_react. apply (react_completes cfg Idle).
  - intros before raws idle h Hrel Hl.
    rewrite events_app, (events_react cfg (final cfg power_on before)), Hl.
    rewrite (Hidle before Hrel), react_idle, react_idle_held, react_press.
    split; intros Hh; f_equal.
    + by destruct (Nat.ltb_spec (long_press_threshold cfg) h); [lia|].
    + by destruct (Nat.ltb_spec (long_press_threshold cfg) h); [|lia].
  - intros before raws idle h Hrel Hl.
    rewrite events_app, (events_react cfg (final cfg power_on before)), Hl.
    rewrite (Hidle before Hrel), react_idle, react_idle_held.
    rewrite <- (app_nil_r (repeat true (S h))), react_press.
    split; intros Hh; f_equal.
    + by destruct (Nat.ltb_spec (long_press_threshold cfg) h); [lia|].
    + by destruct (Nat.ltb_spec (long_press_threshold cfg) h); [|lia].
Qed.

Lemma press_cycle_exclusive_witness :
  events sample_button power_on (repeat true 4 ++ repeat false 3)
  = click_cycle /\
  events sample_button power_on
    ((repeat true 4 ++ repeat false 3) ++ (repeat true 4 ++ repeat false 3))
  = events sample_button power_on (repeat true 4 ++ repeat false 3)
    ++ click_cycle /\
  events sample_button power_on
    ((repeat true 4 ++ repeat false 3) ++ (repeat true 12 ++ repeat false 3))
  = events sample_button power_on (repeat true 4 ++ repeat false 3)
    ++ long_press_cycle /\
  events sample_button power_on
    ((repeat true 12 ++ repeat false 3) ++ repeat true 40)
  = events sample_button power_on (repeat true 12 ++ repeat false 3)
    ++ [PressDown; LongPress].
Proof.
  destruct (press_cycle_exclusive sample_button) as (_ & Hdone & Hheld).
  split; [|split; [|split]].
  - apply (proj1 (Hdone [] (repeat true 4 ++ repeat false 3) 2 3
                    eq_refl eq_refl)).
    cbn. lia.
  - apply (proj1 (Hdone (repeat true 4 ++ repeat false 3)
                    (repeat true 4 ++ repeat false 3) 2 3 eq_refl eq_refl)).
    cbn. lia.
  - apply (proj2 (Hdone (repeat true 4 ++ repeat false 3)
                    (repeat true 12 ++ repeat false 3) 2 11 eq_refl eq_refl)).
    cbn. lia.
  - apply (proj2 (Hheld (repeat true 12 ++ repeat false 3)
                    (repeat true 40) 2 37 eq_refl eq_refl)).
    cbn. lia.
Defined.

End ButtonMachineClaims.

(** C2: in a running board whose codec volume is [v], with [0 <= v <= 100],
    a click of the volume-up button sets the volume to [min (v + 10) 100],
    a click of the volume-down button sets it to [max (v - 10) 0], and each
    calls [ShowNotification] on the display with the text made of
    [Lang::Strings::VOLUME] and the new, clamped value (a real display
    then renders it, a [NoDisplay] ignores it); at [v = 95], with
    "Volume " for that string, the volume-up click shows "Volume 100". *)
Theorem volume_click_clamped cfg lang hw (w : World) (v : Z) :
  running cfg lang hw w ->
  volume_of hw w = v ->
  (0 <= v <= 100)%Z ->
  exists n,
    display_ w = ptr (Cell n) /\
    sets_and_shows hw w (fire cfg lang hw volume_up_button_ Click w) n
      (Z.min (v + 10) 100)
      (VOLUME lang +:+ Int.to_string (Z.min (v + 10) 100)) /\
    sets_and_shows hw w (fire cfg lang hw volume_down_button_ Click w) n
      (Z.max (v - 10) 0)
      (VOLUME lang +:+ Int.to_string (Z.max (v - 10) 0)) /\
    (v = 95%Z -> VOLUME lang = "Volume " ->
     last (trace (world_of (fire cfg lang hw volume_up_button_ Click w)))
     = Some (AShowNotification n "Volume 100")).
Proof.
  intros Hr <- Hrange.
  destruct (click_spec cfg lang hw Up w Hr Hrange) as (n & Hp & Hup).
  destruct (click_spec cfg lang hw Down w Hr Hrange) as (n' & Hp' & Hdown).
  assert (n' = n) as -> by congruence.
  exists n. split; [done|]. split; [exact Hup|]. split; [exact Hdown|].
  intros Hv HL. cbn [volume_button clamped] in Hup.
  destruct Hup as (w' & -> & _ & _ & Hlast & _).
  cbn [world_of]. rewrite Hlast, HL, Hv. reflexivity.
Qed.

Lemma volume_click_clamped_witness :
  exists n,
    display_ (booted 95) = ptr (Cell n) /\
    sets_and_shows (failing [] 95) (booted 95)
      (fire sample_config lang_spec (failing [] 95) volume_up_button_ Click
         (booted 95)) n
      (Z.min (95 + 10) 100)
      (VOLUME lang_spec +:+ Int.to_string (Z.min (95 + 10) 100)) /\
    sets_and_shows (failing [] 95) (booted 95)
      (fire sample_config lang_spec (failing [] 95) volume_down_button_ Click
         (booted 95)) n
      (Z.max (95 - 10) 0)
      (VOLUME lang_spec +:+ Int.to_string (Z.max (95 - 10) 0)) /\
    (95%Z = 95%Z -> VOLUME lang_spec = "Volume " ->
     last (trace (world_of (fire sample_config lang_spec (failing [] 95)
                              volume_up_button_ Click (booted 95))))
     = Some (AShowNotification n "Volume 100")).
Proof.
  apply (volume_click_clamped sample_config lang_spec (failing [] 95)
           (booted 95) 95).
  - apply running_boot. reflexivity.
  - reflexivity.
  - lia.
Defined.

(** C3: when the first four steps succeed and the panel content
    initialisation fails, the constructor returns (no abort) with
    [display_] pointing to a [NoDisplay]; the rest of the bring-up has run
    (all handlers wired, both things added).  In every later world
    [GetDisplay()->ShowNotification(text)] returns and changes nothing but
    the trace; and when the codec starts with a volume in [0, 100], the
    volume stays in [0, 100] (so no handler overflows an [int]) and no
    button event faults or aborts. *)
Theorem panel_init_failure_degrades cfg lang hw :
  (forall c, fatal_step c = true -> answer hw c = ESP_OK) ->
  answer hw esp_lcd_panel_init <> ESP_OK ->
  exists w0 n,
    CompactMl307Board cfg hw process_start = Returned tt w0 /\
    display_ w0 = ptr (Cell n) /\
    heap w0 !! n = Some NoDisplay /\
    (forall b e, handlers w0 !! (b, e) = wired b e) /\
    last (trace w0) = Some (AAddThing "Lamp") /\
    forall w, running cfg lang hw w ->
      heap w !! n = Some NoDisplay /\
      (forall text,
         bind GetDisplay (fun display => ShowNotification display text) w
         = Returned tt (emit (AShowNotification n text) w)) /\
      ((0 <= codec_initial_volume hw <= 100)%Z ->
       (0 <= volume_of hw w <= 100)%Z /\
       forall b e, returned (fire cfg lang hw b e w) = true).
Proof.
  intros Hf Hinit.
  destruct (bring_up_total cfg hw Hf) as [w0 Hb]; [congruence|].
  pose proof (bring_up_returned cfg hw w0 Hb)
    as (_ & _ & n & Hp & Hd & Hh & _).
  destruct (decide (answer hw esp_lcd_panel_init = ESP_OK)); [congruence|].
  exists w0, n. repeat (split; [done|]). split.
  { revert Hb. bring_up_cases. all: by intros [= <-]. }
  intros w Hr.
  destruct (running_display cfg lang hw w0 w n NoDisplay Hb Hp Hd Hr)
    as (Hpw & d & Hdw & Hk).
  destruct d; [|discriminate]. split; [done|]. split.
  - intros text. unfold_handler. rewrite Hpw, Hdw. cbn.
    by rewrite (set_heap_id w n NoDisplay Hdw).
  - intros Hvol. split; [by apply (running_volume_range cfg lang hw)|].
    intros b e. destruct (fire_returns cfg lang hw b e w Hr) as [w' ->]. done.
Qed.

Lemma panel_init_failure_degrades_witness :
  exists w0 n,
    CompactMl307Board sample_config (failing [esp_lcd_panel_init] 70)
      process_start = Returned tt w0 /\
    display_ w0 = ptr (Cell n) /\
    heap w0 !! n = Some NoDisplay /\
    (forall b e, handlers w0 !! (b, e) = wired b e) /\
    last (trace w0) = Some (AAddThing "Lamp") /\
    forall w,
      running sample_config lang_spec (failing [esp_lcd_panel_init] 70) w ->
      heap w !! n = Some NoDisplay /\
      (forall text,
         bind GetDisplay (fun display => ShowNotification display text) w
         = Returned tt (emit (AShowNotification n text) w)) /\
      (0 <= volume_of (failing [esp_lcd_panel_init] 70) w <= 100)%Z /\
      (forall b e,
         returned (fire sample_config lang_spec
                     (failing [esp_lcd_panel_init] 70) b e w) = true).
Proof.
  destruct (panel_init_failure_degrades sample_config lang_spec
              (failing [esp_lcd_panel_init] 70))
    as (w0 & n & Hb & Hp & Hd & Hh & Hl & Hlater).
  - intros c Hc. destruct c; try discriminate Hc; reflexivity.
  - vm_compute. discriminate.
  - exists w0, n. repeat (split; [assumption|]).
    intros w Hr. destruct (Hlater w Hr) as (Hn & Hshow & Hfire).
    split; [assumption|]. split; [assumption|].
    apply Hfire. cbn. lia.
Defined.

(** C4: when one of the first four steps (bus creation, panel I/O
    creation, panel driver creation, panel reset) fails, the constructor
    aborts: the failed check is the first failing step, the diagnostic is
    its expression and its error code, the failed call is the last thing
    the process did, and no handler has been wired and no display
    constructed.  When it is the bus creation that fails, the abort is at
    the bus creation. *)
Theorem fatal_step_aborts cfg hw (c0 : DriverCall) :
  fatal_step c0 = true ->
  answer hw c0 <> ESP_OK ->
  exists c w pre,
    fatal_step c = true /\
    answer hw c <> ESP_OK /\
    CompactMl307Board cfg hw process_start
    = Aborted (checked_expression c) (answer hw c) w /\
    trace w = pre ++ [ADriver c (answer hw c)] /\
    (forall a, a ∈ trace w -> is_register a = false /\ is_new a = false) /\
    (forall b e, handlers w !! (b, e) = None) /\
    display_ w = nullptr /\
    (answer hw i2c_new_master_bus <> ESP_OK -> c = i2c_new_master_bus).
Proof.
  intros Hc0 Hfail.
  assert (Hsome : ~ (answer hw i2c_new_master_bus = ESP_OK /\
                     answer hw esp_lcd_new_panel_io_i2c_v2 = ESP_OK /\
                     answer hw esp_lcd_new_panel_ssd1306 = ESP_OK /\
                     answer hw esp_lcd_panel_reset = ESP_OK)).
  { intros (? & ? & ? & ?). destruct c0; try discriminate Hc0; congruence. }
  clear Hc0 Hfail.
  bring_up_cases; try (exfalso; apply Hsome; repeat split; assumption).
  all: match goal with
       | H : answer _ ?c <> ESP_OK |- _ => exists c
       end.
  all: eexists; eexists; split; [reflexivity|].
  all: split; [assumption|].
  all: split; [reflexivity|].
  all: split; [exact (trace_emit _ _)|].
  all: split;
    [intros a Ha; cbn in Ha;
     repeat (apply elem_of_cons in Ha as [-> | Ha]; [done|]);
     by apply elem_of_nil in Ha|].
  all: split; [intros [] []; reflexivity|].
  all: split; [reflexivity|].
  all: congruence.
Qed.

Lemma fatal_step_aborts_witness :
  exists c w pre,
    fatal_step c = true /\
    answer (failing [i2c_new_master_bus] 70) c <> ESP_OK /\
    CompactMl307Board sample_config (failing [i2c_new_master_bus] 70)
      process_start
    = Aborted (checked_expression c)
        (answer (failing [i2c_new_master_bus] 70) c) w /\
    trace w = pre ++ [ADriver c (answer (failing [i2c_new_master_bus] 70) c)] /\
    (forall a, a ∈ trace w -> is_register a = false /\ is_new a = false) /\
    (forall b e, handlers w !! (b, e) = None) /\
    display_ w = nullptr /\
    (answer (failing [i2c_new_master_bus] 70) i2c_new_master_bus <> ESP_OK ->
     c = i2c_new_master_bus).
Proof.
  apply (fatal_step_aborts sample_config (failing [i2c_new_master_bus] 70)
           i2c_new_master_bus).
  - reflexivity.
  - vm_compute. discriminate.
Defined.

(** C5: in every execution of the constructor, whatever the hardware
    answers, the display (real or null) exists before any button handler
    is wired.  In the final trace each handler registration is preceded by
    the construction of the display.  In the worlds between the statements
    of the constructor (the constructor is the run of its body, and the
    last checkpoint is the world it returns), whenever some handler is wired [display_]
    points to a live display; and each statement that registers a handler
    starts in such a world and leaves the pointer and the display in
    place.  In a running board [display_] points to a live display in
    every world, and, when the codec starts with a volume in [0, 100], no
    button event faults. *)
Theorem handlers_wired_after_display cfg hw :
  (forall pre b e h post,
     trace (world_of (CompactMl307Board cfg hw process_start))
     = pre ++ ARegister b e h :: post ->
     exists n d, ANew n d ∈ pre) /\
  (forall i w,
     checkpoints (statements (CompactMl307Board_body cfg hw)) process_start !! i
     = Some w ->
     (forall b e h, handlers w !! (b, e) = Some h ->
                    live w (display_ w) = true) /\
     (forall c,
        statements (CompactMl307Board_body cfg hw) !! i = Some c ->
        registers c w = true ->
        live w (display_ w) = true /\
        display_ (world_of (c w)) = display_ w /\
        live (world_of (c w)) (display_ w) = true)) /\
  CompactMl307Board cfg hw = exec (CompactMl307Board_body cfg hw) /\
  (returned (CompactMl307Board cfg hw process_start) = true ->
   last (checkpoints (statements (CompactMl307Board_body cfg hw)) process_start)
   = Some (world_of (CompactMl307Board cfg hw process_start))) /\
  (forall lang w,
     running cfg lang hw w ->
     live w (display_ w) = true /\
     ((0 <= codec_initial_volume hw <= 100)%Z ->
      (0 <= volume_of hw w <= 100)%Z /\
      forall b' e', returned (fire cfg lang hw b' e' w) = true)).
Proof.
  destruct (constructor_checkpoints cfg hw) as (Hwired & Hreg & Hlast).
  split; [|split; [|split; [reflexivity|split; [exact Hlast|]]]].
  - intros pre b e h post Ht.
    pose proof (bring_up_order cfg hw) as Ho. rewrite Ht in Ho.
    apply wired_after_display_app in Ho as [Ho | Ho]; [discriminate | exact Ho].
  - intros i w Hi. split.
    + intros b e h Hh.
      pose proof (forallb_lookup _ _ _ _ Hwired Hi) as Hw.
      unfold wired_needs_display, some_handler_wired in Hw.
      destruct (bool_decide (handlers w = ∅)) eqn:He; [|exact Hw].
      apply bool_decide_eq_true in He. rewrite He in Hh. done.
    + intros c Hc Hr.
      pose proof (forallb_zip_lookup _ _ _ _ _ _ Hreg Hi Hc) as Hw.
      unfold registration_sees_display in Hw. cbn [fst snd] in Hw.
      rewrite Hr in Hw. cbn [implb] in Hw.
      apply andb_prop in Hw as [Hw Hlive']. apply andb_prop in Hw as [Hlive Hsame].
      apply bool_decide_eq_true in Hsame. done.
  - intros lang w Hr. split.
    + destruct (running_inv _ _ _ _ Hr) as [(n & d & -> & Hd) _].
      cbn. rewrite Hd. by apply bool_decide_eq_true.
    + intros Hvol. split; [by apply (running_volume_range cfg lang hw)|].
      intros b' e'.
      by destruct (fire_returns cfg lang hw b' e' w Hr) as [w' ->].
Qed.

Lemma handlers_wired_after_display_witness :
  (exists n d, ANew n d ∈ firstn 15 (trace (booted 70))) /\
  last (checkpoints (statements (CompactMl307Board_body sample_config
                                   (failing [] 70))) process_start)
  = Some (booted 70) /\
  live (booted 70) (display_ (booted 70)) = true /\
  (0 <= volume_of (failing [] 70) (booted 70) <= 100)%Z /\
  (forall b' e',
     returned (fire sample_config lang_spec (failing [] 70) b' e' (booted 70))
     = true).
Proof.
  destruct (handlers_wired_after_display sample_config (failing [] 70))
    as (Htrace & _ & _ & Hlast & Hrun).
  split.
  { apply (Htrace (firstn 15 (trace (booted 70)))
             boot_button_ Click BootClick (skipn 16 (trace (booted 70)))).
    vm_compute. reflexivity. }
  split; [apply Hlast; reflexivity|].
  destruct (Hrun lang_spec (booted 70)) as (Hlive & Hfire).
  { apply running_boot. reflexivity. }
  split; [exact Hlive|]. apply Hfire. cbn. lia.
Defined.

(** C6: in a running board, whatever the volume was, a long press of the
    volume-up button sets the volume to exactly 100 and calls
    [ShowNotification] with the fixed text [Lang::Strings::MAX_VOLUME]; a
    long press of the volume-down button sets it to exactly 0 and calls
    [ShowNotification] with the fixed text [Lang::Strings::MUTED]. *)
Theorem volume_long_press_extreme cfg lang hw (w : World) (v : Z) :
  running cfg lang hw w ->
  volume_of hw w = v ->
  exists n,
    display_ w = ptr (Cell n) /\
    sets_and_shows hw w (fire cfg lang hw volume_up_button_ LongPress w) n
      100 (MAX_VOLUME lang) /\
    sets_and_shows hw w (fire cfg lang hw volume_down_button_ LongPress w) n
      0 (MUTED lang).
Proof.
  intros Hr _.
  pose proof (running_inv _ _ _ _ Hr) as Hinv.
  destruct (Hinv) as [(n & d & Hp & Hd) _].
  rewrite !(fire_wired _ _ _ _ _ _ Hinv). cbn [wired].
  exists n. split; [done|]. split.
  - exact (set_and_show cfg hw w n d 100 (MAX_VOLUME lang) Hp Hd).
  - exact (set_and_show cfg hw w n d 0 (MUTED lang) Hp Hd).
Qed.

Lemma volume_long_press_extreme_witness :
  exists n,
    display_ (booted 37) = ptr (Cell n) /\
    sets_and_shows (failing [] 37) (booted 37)
      (fire sample_config lang_spec (failing [] 37) volume_up_button_ LongPress
         (booted 37)) n 100 "max volume" /\
    sets_and_shows (failing [] 37) (booted 37)
      (fire sample_config lang_spec (failing [] 37) volume_down_button_
         LongPress (booted 37)) n 0 "muted".
Proof.
  apply (volume_long_press_extreme sample_config lang_spec (failing [] 37)
           (booted 37) 37).
  - apply running_boot. reflexivity.
  - reflexivity.
Defined.

(** C7, as stated, at the first call of [GetDisplay()] after a bring-up on
    which every driver call succeeded: the call constructs nothing (the
    display it returns was constructed by the constructor), while the
    first calls of [GetLed()] and [GetAudioCodec()] do construct. *)
Lemma GetDisplay_is_not_lazy :
  constructs GetDisplay (booted 70) = false /\
  live (booted 70) (display_ (booted 70)) = true /\
  constructs (GetLed sample_config) (booted 70) = true /\
  constructs (GetAudioCodec sample_config (failing [] 70)) (booted 70) = true.
Proof. vm_compute. repeat split. Qed.

(** C7, amended: in a running board, [GetLed()] and [GetAudioCodec()] each
    return the address of their static at every call.  A call that finds
    the static not yet constructed constructs it (the LED on its pin; the
    codec of the class the build selected, at its initial volume) and
    changes nothing else; a call that finds it constructed returns it and
    leaves the whole world, the state of the object included, as it was;
    right after the bring-up neither is constructed.  [GetDisplay()]
    returns at every call the pointer the constructor stored in
    [display_], which points to the display constructed during the
    bring-up; it never constructs anything and never changes the world. *)
Theorem accessors_same_instance cfg lang hw (w0 w : World) :
  CompactMl307Board cfg hw process_start = Returned tt w0 ->
  running cfg lang hw w ->
  (value (GetLed cfg w) = Some (ptr StaticLed) /\
   idempotent (GetLed cfg) w /\
   constructs (GetLed cfg) w = negb (live w (ptr StaticLed)) /\
   constructs (GetLed cfg) w0 = true /\
   (forall l, led w = Some l -> GetLed cfg w = Returned (ptr StaticLed) w) /\
   (led w = None ->
    GetLed cfg w
    = Returned (ptr StaticLed)
        (emit (AStatic StaticLed)
           (set_led (Some {| led_gpio := BUILTIN_LED_GPIO cfg |}) w)))) /\
  (value (GetAudioCodec cfg hw w) = Some (ptr StaticAudioCodec) /\
   idempotent (GetAudioCodec cfg hw) w /\
   constructs (GetAudioCodec cfg hw) w = negb (live w (ptr StaticAudioCodec)) /\
   constructs (GetAudioCodec cfg hw) w0 = true /\
   (forall c, audio_codec w = Some c ->
              GetAudioCodec cfg hw w = Returned (ptr StaticAudioCodec) w) /\
   (audio_codec w = None ->
    GetAudioCodec cfg hw w
    = Returned (ptr StaticAudioCodec)
        (emit (AStatic StaticAudioCodec)
           (set_audio_codec
              (Some {| simplex := AUDIO_I2S_METHOD_SIMPLEX cfg;
                       output_volume_ := codec_initial_volume hw |}) w)))) /\
  (GetDisplay w = Returned (display_ w0) w /\
   idempotent GetDisplay w /\
   live w0 (display_ w0) = true /\
   live w (display_ w0) = true /\
   constructs GetDisplay w = false).
Proof.
  intros Hb Hr.
  pose proof (bring_up_returned cfg hw w0 Hb)
    as (_ & _ & n & Hp & Hd & _ & Hled & Hcodec).
  destruct (running_display cfg lang hw w0 w n _ Hb Hp Hd Hr)
    as (Hpw & d & Hdw & _).
  split; [|split].
  - destruct (GetLed_spec cfg w) as (Hv & Hi & Hc).
    repeat (split; [done|]).
    split; [unfold constructs, GetLed; rewrite Hled; cbn; by rewrite Hled|].
    split; [intros l Hl|intros Hl]; unfold GetLed; by rewrite Hl.
  - destruct (GetAudioCodec_spec cfg hw w) as (Hv & Hi & Hc).
    repeat (split; [done|]).
    split; [unfold constructs, GetAudioCodec; rewrite Hcodec; cbn;
            by rewrite Hcodec|].
    split; [intros c Hc'|intros Hc']; unfold GetAudioCodec; by rewrite Hc'.
  - unfold idempotent, constructs, GetDisplay, gets.
    rewrite Hpw, Hp. cbn [live]. rewrite Hd, Hdw.
    repeat split; eauto.
    exists (ptr (Cell n)), w. by rewrite Hpw.
Qed.

Lemma accessors_same_instance_witness :
  volume_of (failing [] 70) booted_then_up = 80%Z /\
  GetAudioCodec sample_config (failing [] 70) booted_then_up
  = Returned (ptr StaticAudioCodec) booted_then_up /\
  GetLed sample_config booted_then_up
  = Returned (ptr StaticLed)
      (emit (AStatic StaticLed)
         (set_led (Some {| led_gpio := BUILTIN_LED_GPIO sample_config |})
            booted_then_up)) /\
  GetDisplay booted_then_up = Returned (display_ (booted 70)) booted_then_up /\
  constructs GetDisplay booted_then_up = false.
Proof.
  destruct (accessors_same_instance sample_config lang_spec (failing [] 70)
              (booted 70) booted_then_up)
    as ((_ & _ & _ & _ & _ & Hled) & (_ & _ & _ & _ & Hcodec & _)
        & (Hdisp & _ & _ & _ & Hnone)).
  - reflexivity.
  - apply (running_fire _ _ _ (booted 70) volume_up_button_ Click).
    + apply running_boot. reflexivity.
    + vm_compute. reflexivity.
  - split; [vm_compute; reflexivity|].
    split; [apply (Hcodec {| simplex := true; output_volume_ := 80 |});
            vm_compute; reflexivity|].
    split; [apply Hled; vm_compute; reflexivity|].
    split; assumption.
Defined.

Section DebounceClaims.

Import ButtonMachine.

(** C8: a [PressDown], [PressUp] or [Click] is fired only by a sample
    that completes a run of samples at the new level at least as long as
    the debounce window.  A change of the raw level shorter than the
    window is invisible: the machine fires and ends as if the line had
    kept its level; on a released line such bursts fire no event at all.
    A [LongPress] is fired [long_press_threshold + 1] ticks after the
    [PressDown] of its press, wherever the raw edge was. *)
Theorem debounce_window_respected (cfg : ButtonConfig) :
  (forall raws raw e,
     e ∈ fired cfg raws raw ->
     e <> LongPress ->
     raw = bool_decide (e = PressDown) /\
     exists p n,
       raws ++ [raw] = p ++ repeat raw n /\
       debounce_window cfg <= n /\ 0 < n) /\
  (forall m k,
     pending (line m) = 0 ->
     k < debounce_window cfg ->
     outputs cfg m (repeat (negb (level (line m))) k ++ [level (line m)])
     = outputs cfg m (repeat (level (line m)) (S k)) /\
     final cfg m (repeat (negb (level (line m))) k ++ [level (line m)])
     = final cfg m (repeat (level (line m)) (S k))) /\
  (forall bursts,
     Forall (fun b => fst b < debounce_window cfg) bursts ->
     events cfg power_on (noise bursts) = [] /\
     final cfg power_on (noise bursts) = power_on) /\
  (forall raws raw,
     LongPress ∈ fired cfg raws raw ->
     exists o,
       outputs cfg power_on raws
       = o ++ [PressDown] :: repeat [] (long_press_threshold cfg)).
Proof.
  split; [|split; [|split]].
  - apply accepted_after_window.
  - apply glitch_invisible.
  - apply noise_silent.
  - apply long_press_after_threshold.
Qed.

Lemma debounce_window_respected_witness :
  (events sample_button power_on (noise [(2, 0); (1, 3); (2, 1)]) = [] /\
   final sample_button power_on (noise [(2, 0); (1, 3); (2, 1)]) = power_on) /\
  (exists o,
     outputs sample_button power_on (repeat true 8)
     = o ++ [PressDown] :: repeat [] (long_press_threshold sample_button)).
Proof.
  split.
  - apply (proj1 (proj2 (proj2 (debounce_window_respected sample_button)))).
    repeat constructor; cbn; lia.
  - apply (proj2 (proj2 (proj2 (debounce_window_respected sample_button)))
             (repeat true 8) true).
    vm_compute. left.
Defined.

End DebounceClaims.

(** C9, as stated, on a board booted with volume 50: when the activities
    of the two buttons alternate statement by statement, both handlers
    read 50, the volume-up handler writes 60, the volume-down handler
    writes 40 over it, and the volume ends at 40; run one after the other,
    in either order, the two clicks end at 50.  The update of the
    volume-up click is lost. *)
Lemma click_update_lost :
  volume_of (failing [] 50)
    (world_of (run_schedule sample_config lang_spec (failing [] 50)
                 [Up; Down; Up; Down; Up; Down] both_ready (booted 50)))
  = 40%Z /\
  volume_of (failing [] 50)
    (world_of (run_schedule sample_config lang_spec (failing [] 50)
                 (serial [Up; Down]) both_ready (booted 50)))
  = 50%Z /\
  volume_of (failing [] 50)
    (world_of (run_schedule sample_config lang_spec (failing [] 50)
                 (serial [Down; Up]) both_ready (booted 50)))
  = 50%Z.
Proof. vm_compute. repeat split. Qed.

(** C9, amended: each click handler reads the volume, clamps and writes
    it back in separate statements.  When the handlers run one at a time,
    each from its first statement to its last, no update is lost: after
    any sequence of clicks on a volume in [0, 100] every activity is back
    at its first statement and the volume is the composition of the
    clamped steps, in the order of the clicks. *)
Theorem click_updates_serial cfg lang hw clicks (w : World) :
  running cfg lang hw w ->
  (0 <= volume_of hw w <= 100)%Z ->
  exists w',
    run_schedule cfg lang hw (serial clicks) both_ready w
    = Returned both_ready w' /\
    volume_of hw w'
    = fold_left (fun v s => clamped s v) clicks (volume_of hw w).
Proof.
  intros Hr Hrange.
  destruct (serial_clicks cfg lang hw clicks w Hr Hrange) as (w' & Hrun & _ & Hv).
  eauto.
Qed.

Lemma click_updates_serial_witness :
  exists w',
    run_schedule sample_config lang_spec (failing [] 95)
      (serial [Up; Down; Down]) both_ready (booted 95)
    = Returned both_ready w' /\
    volume_of (failing [] 95) w'
    = fold_left (fun v s => clamped s v) [Up; Down; Down]
        (volume_of (failing [] 95) (booted 95)).
Proof.
  apply (click_updates_serial sample_config lang_spec (failing [] 95)
           [Up; Down; Down] (booted 95)).
  - apply running_boot. reflexivity.
  - vm_compute. split; discriminate.
Defined.

(** C10: in every world of a running board (the constructor has
    returned), [GetDisplay()] returns a pointer that is not null and points
    to a live display: a [NoDisplay] when the panel content initialisation
    failed, a real display when it succeeded. *)
Theorem display_never_null cfg lang hw (w : World) :
  running cfg lang hw w ->
  exists n d,
    GetDisplay w = Returned (ptr (Cell n)) w /\
    ptr (Cell n) <> nullptr /\
    heap w !! n = Some d /\
    (answer hw esp_lcd_panel_init <> ESP_OK -> d = NoDisplay) /\
    (answer hw esp_lcd_panel_init = ESP_OK -> is_null_display d = false).
Proof.
  intros Hr. destruct (running_booted _ _ _ _ Hr) as [w0 Hb].
  pose proof (bring_up_returned cfg hw w0 Hb)
    as (_ & _ & n & Hp & Hd & _).
  destruct (running_display cfg lang hw w0 w n _ Hb Hp Hd Hr)
    as (Hpw & d & Hdw & Hk).
  exists n, d. unfold GetDisplay, gets. rewrite Hpw.
  repeat (split; [done|]).
  destruct (decide (answer hw esp_lcd_panel_init = ESP_OK)); split;
    try congruence; intros _.
  - exact Hk.
  - by destruct d.
Qed.

Lemma display_never_null_witness :
  exists n d,
    GetDisplay (booted_blind 70) = Returned (ptr (Cell n)) (booted_blind 70) /\
    ptr (Cell n) <> nullptr /\
    heap (booted_blind 70) !! n = Some d /\
    (answer (failing [esp_lcd_panel_init] 70) esp_lcd_panel_init <> ESP_OK ->
     d = NoDisplay) /\
    (answer (failing [esp_lcd_panel_init] 70) esp_lcd_panel_init = ESP_OK ->
     is_null_display d = false).
Proof.
  apply (display_never_null sample_config lang_spec
           (failing [esp_lcd_panel_init] 70) (booted_blind 70)).
  apply running_boot. reflexivity.
Defined.


(* ===================================================================== *)
(** ** More of the bring-up *)
(* ===================================================================== *)

(** X1: when the first five driver calls succeed and powering the panel
    on fails, the constructor aborts with the expression and the code of
    that call; the failed call is the last thing the process did; the
    three handles are set, but no display object has been constructed
    ([display_] is still null) and no handler is wired. *)
Theorem power_on_failure_aborts cfg hw :
  (forall c, c <> esp_lcd_panel_disp_on_off -> answer hw c = ESP_OK) ->
  answer hw esp_lcd_panel_disp_on_off <> ESP_OK ->
  exists w pre,
    CompactMl307Board cfg hw process_start
    = Aborted (checked_expression esp_lcd_panel_disp_on_off)
        (answer hw esp_lcd_panel_disp_on_off) w /\
    trace w = pre ++ [ADriver esp_lcd_panel_disp_on_off
                        (answer hw esp_lcd_panel_disp_on_off)] /\
    display_ w = nullptr /\
    heap w = ∅ /\
    (forall b e, handlers w !! (b, e) = None) /\
    display_i2c_bus_ w = Some (bus_handle hw) /\
    panel_io_ w = Some (io_handle hw) /\
    panel_ w = Some (panel_handle hw).
Proof.
  intros Hok Hfail.
  assert (answer hw i2c_new_master_bus = ESP_OK) by by apply Hok.
  assert (answer hw esp_lcd_new_panel_io_i2c_v2 = ESP_OK) by by apply Hok.
  assert (answer hw esp_lcd_new_panel_ssd1306 = ESP_OK) by by apply Hok.
  assert (answer hw esp_lcd_panel_reset = ESP_OK) by by apply Hok.
  assert (answer hw esp_lcd_panel_init = ESP_OK) by by apply Hok.
  bring_up_cases.
  all: eexists _, _; split; [reflexivity|].
  all: split; [exact (trace_emit _ _)|].
  all: split; [reflexivity|].
  all: split; [reflexivity|].
  all: split; [intros [] []; reflexivity|].
  all: repeat split; reflexivity.
Qed.

Lemma power_on_failure_aborts_witness :
  exists w pre,
    CompactMl307Board sample_config (failing [esp_lcd_panel_disp_on_off] 70)
      process_start
    = Aborted (checked_expression esp_lcd_panel_disp_on_off)
        (answer (failing [esp_lcd_panel_disp_on_off] 70)
           esp_lcd_panel_disp_on_off) w /\
    trace w = pre ++ [ADriver esp_lcd_panel_disp_on_off
                        (answer (failing [esp_lcd_panel_disp_on_off] 70)
                           esp_lcd_panel_disp_on_off)] /\
    display_ w = nullptr /\
    heap w = ∅ /\
    (forall b e, handlers w !! (b, e) = None) /\
    display_i2c_bus_ w
    = Some (bus_handle (failing [esp_lcd_panel_disp_on_off] 70)) /\
    panel_io_ w = Some (io_handle (failing [esp_lcd_panel_disp_on_off] 70)) /\
    panel_ w = Some (panel_handle (failing [esp_lcd_panel_disp_on_off] 70)).
Proof.
  apply (power_on_failure_aborts sample_config
           (failing [esp_lcd_panel_disp_on_off] 70)).
  - intros c Hc. destruct c; try reflexivity. by destruct Hc.
  - vm_compute. discriminate.
Defined.

(** X2: the constructor never faults; it returns exactly when the first
    four driver calls succeed and either the panel content initialisation
    fails or powering the panel on succeeds; otherwise it aborts. *)
Theorem bring_up_outcome cfg hw :
  (returned (CompactMl307Board cfg hw process_start) = true <->
   (forall c, fatal_step c = true -> answer hw c = ESP_OK) /\
   (answer hw esp_lcd_panel_init <> ESP_OK \/
    answer hw esp_lcd_panel_disp_on_off = ESP_OK)) /\
  (returned (CompactMl307Board cfg hw process_start) = false <->
   aborted (CompactMl307Board cfg hw process_start) = true).
Proof.
  split.
  - split.
    + destruct (CompactMl307Board cfg hw process_start) as [[] w| |] eqn:Hb;
        try discriminate.
      intros _. apply bring_up_returned in Hb as (Hf & Hon & _).
      split; [done|].
      destruct (decide (answer hw esp_lcd_panel_init = ESP_OK)); auto.
    + intros [Hf Hon]. destruct (bring_up_total cfg hw Hf) as [w ->]; [|done].
      intros Hinit. by destruct Hon.
  - bring_up_cases; by cbn.
Qed.

(** X3: whatever the hardware answers, the driver calls the constructor
    makes are an initial segment of the six calls in source order (none
    is made twice or out of order); each is recorded with the answer of
    the hardware; a call is made only if every call before it answered
    [ESP_OK]; so the panel is never powered on after a failed content
    initialisation. *)
Theorem driver_calls_in_order cfg hw :
  driver_calls (trace (world_of (CompactMl307Board cfg hw process_start)))
    `prefix_of` bring_up_calls /\
  (forall c rc,
     ADriver c rc ∈ trace (world_of (CompactMl307Board cfg hw process_start)) ->
     rc = answer hw c /\
     forall c', call_index c' < call_index c -> answer hw c' = ESP_OK) /\
  (answer hw esp_lcd_panel_init <> ESP_OK ->
   esp_lcd_panel_disp_on_off
   ∉ driver_calls (trace (world_of (CompactMl307Board cfg hw process_start)))).
Proof.
  bring_up_cases; cbn.
  all: split; [by eexists|].
  all: split;
    [intros c rc Hin;
     repeat (apply elem_of_cons in Hin as [Hin | Hin];
             [first [discriminate Hin
                    | injection Hin as -> ->; split; [reflexivity|];
                      intros []; cbn; first [done | lia]]|]);
     by apply elem_of_nil in Hin|].
  all: intros Hinit Hin; try contradiction.
  all: repeat (apply elem_of_cons in Hin as [Hin | Hin]; [discriminate Hin|]).
  all: by apply elem_of_nil in Hin.
Qed.

(** X4: when the constructor returns, the handler registrations of the
    trace are exactly the seven of [InitializeButtons], in source order,
    followed by exactly two things, "Speaker" then "Lamp"; these nine
    actions end the trace.  When it aborts, nothing has been registered
    and no thing has been added. *)
Theorem wiring_then_things cfg hw :
  (returned (CompactMl307Board cfg hw process_start) = true ->
   (registrations ++ [AAddThing "Speaker"; AAddThing "Lamp"])
     `suffix_of` trace (world_of (CompactMl307Board cfg hw process_start)) /\
   List.filter (fun a => is_register a || is_thing a)
     (trace (world_of (CompactMl307Board cfg hw process_start)))
   = registrations ++ [AAddThing "Speaker"; AAddThing "Lamp"]) /\
  (aborted (CompactMl307Board cfg hw process_start) = true ->
   List.filter (fun a => is_register a || is_thing a)
     (trace (world_of (CompactMl307Board cfg hw process_start)))
   = []).
Proof.
  bring_up_cases; cbn; (split; [|done]); try done.
  all: intros _; split; [|reflexivity].
  all: first
    [ by eexists [_; _; _; _; _; _; _; _; _; _; _; _; _; _]
    | by eexists [_; _; _; _; _; _; _; _; _; _; _; _; _; _; _] ].
Qed.

(** X5: when the constructor returns, the three handles are the ones the
    creating calls handed out; [display_] points to the only cell of the
    heap; that cell holds a [NoDisplay] when the content initialisation
    failed, and otherwise an [OledDisplay] built from the members
    [panel_io_] and [panel_] and the configured width, height and mirror
    flags, showing nothing yet; and neither static is constructed. *)
Theorem bring_up_objects cfg hw (w : World) :
  CompactMl307Board cfg hw process_start = Returned tt w ->
  display_i2c_bus_ w = Some (bus_handle hw) /\
  panel_io_ w = Some (io_handle hw) /\
  panel_ w = Some (panel_handle hw) /\
  led w = None /\
  audio_codec w = None /\
  exists n,
    display_ w = ptr (Cell n) /\
    dom (heap w) = {[n]} /\
    heap w !! n = Some
      (if decide (answer hw esp_lcd_panel_init = ESP_OK)
       then OledDisplay (panel_io_ w) (panel_ w)
              (DISPLAY_WIDTH cfg) (DISPLAY_HEIGHT cfg)
              (DISPLAY_MIRROR_X cfg) (DISPLAY_MIRROR_Y cfg) None
       else NoDisplay).
Proof.
  bring_up_cases; intros [= <-].
  all: repeat (split; [reflexivity|]).
  all: eexists; split; [reflexivity|].
  all: split;
    [cbn [heap emit set_handlers set_display_ set_heap set_panel_ set_panel_io_
          set_display_i2c_bus_ process_start];
     rewrite dom_insert_L; set_solver|].
  all: apply lookup_insert_eq.
Qed.

Lemma bring_up_objects_witness :
  display_i2c_bus_ (booted 70) = Some (bus_handle (failing [] 70)) /\
  panel_io_ (booted 70) = Some (io_handle (failing [] 70)) /\
  panel_ (booted 70) = Some (panel_handle (failing [] 70)) /\
  led (booted 70) = None /\
  audio_codec (booted 70) = None /\
  exists n,
    display_ (booted 70) = ptr (Cell n) /\
    dom (heap (booted 70)) = {[n]} /\
    heap (booted 70) !! n = Some
      (if decide (answer (failing [] 70) esp_lcd_panel_init = ESP_OK)
       then OledDisplay (panel_io_ (booted 70)) (panel_ (booted 70))
              (DISPLAY_WIDTH sample_config) (DISPLAY_HEIGHT sample_config)
              (DISPLAY_MIRROR_X sample_config) (DISPLAY_MIRROR_Y sample_config)
              None
       else NoDisplay).
Proof.
  apply (bring_up_objects sample_config (failing [] 70) (booted 70)).
  reflexivity.
Defined.

(* ===================================================================== *)
(** ** More of the handlers *)
(* ===================================================================== *)

Lemma count_actions_app p (t1 t2 : list Action) :
  count_actions p (t1 ++ t2) = count_actions p t1 + count_actions p t2.
Proof. induction t1 as [|a t1 IH]; cbn; [done|]. rewrite IH. lia. Qed.

(** What a handler leaves alone, and what it adds to the trace. *)
Lemma run_handler_frame cfg lang hw h (w : World) n d :
  display_ w = ptr (Cell n) ->
  heap w !! n = Some d ->
  exists w' acts,
    run_handler cfg lang hw h w = Returned tt w' /\
    trace w' = trace w ++ acts /\
    led w' = led w /\
    display_ w' = display_ w /\
    dom (heap w') = dom (heap w) /\
    display_i2c_bus_ w' = display_i2c_bus_ w /\
    panel_io_ w' = panel_io_ w /\
    panel_ w' = panel_ w /\
    count_actions (is_static StaticLed) acts = 0 /\
    count_actions is_new acts = 0 /\
    if is_volume_handler h
    then exists c',
        audio_codec w' = Some c' /\
        simplex c' = match audio_codec w with
                     | Some c => simplex c
                     | None => AUDIO_I2S_METHOD_SIMPLEX cfg
                     end /\
        count_actions (is_static StaticAudioCodec) acts
        = match audio_codec w with Some _ => 0 | None => 1 end
    else audio_codec w' = audio_codec w /\ heap w' = heap w /\
         exists c, acts = [AApp c].
Proof.
  intros Hp Hd.
  assert (Hdom : forall d', dom (<[n:=d']> (heap w)) = dom (heap w)).
  { intros d'. apply dom_insert_lookup_L. eauto. }
  destruct h; unfold_handler.
  1-3: by eexists _, [_]; repeat split; eauto.
  all: destruct (audio_codec w) as [c|] eqn:Hc;
    repeat (cbn; rewrite ?Hc, ?Hp, ?Hd).
  all: eexists _, _; split; [reflexivity|];
    cbn [trace emit set_heap set_audio_codec led display_ heap
         display_i2c_bus_ panel_io_ panel_ audio_codec is_volume_handler].
  all: split; [rewrite <- !app_assoc; reflexivity|].
  all: repeat (split; [first [reflexivity | apply Hdom | congruence]|]).
  all: eexists; repeat split; reflexivity.
Qed.

Lemma boot_lifetime cfg hw (w0 : World) :
  CompactMl307Board cfg hw process_start = Returned tt w0 ->
  lifetime cfg w0 w0.
Proof.
  bring_up_cases; intros [= <-].
  all: split; try reflexivity; intros c; discriminate.
Qed.

Lemma handlers_compose_running cfg lang hw hs (w : World) :
  running cfg lang hw w ->
  (0 <= volume_of hw w <= 100)%Z ->
  exists w',
    run_handlers cfg lang hw hs w = Returned tt w' /\
    running cfg lang hw w' /\
    volume_of hw w'
    = fold_left (fun v h => volume_step h v) hs (volume_of hw w) /\
    (0 <= volume_of hw w' <= 100)%Z.
Proof.
  revert w. induction hs as [|h hs IH]; intros w Hr Hrange.
  - exists w. by cbn.
  - destruct (handler_volume cfg lang hw h w Hr Hrange) as (w1 & Hh & Hv).
    pose proof (run_handler_running cfg lang hw h w w1 Hr Hh) as Hr1.
    destruct (IH w1 Hr1) as (w' & Hrun & Hr' & Hv' & Hrange').
    { rewrite Hv. by apply volume_step_range. }
    exists w'. cbn [run_handlers fold_left]. unfold bind. rewrite Hh.
    split; [done|]. split; [done|]. split; [by rewrite Hv', Hv | done].
Qed.

Lemma fold_up_clicks k v :
  (v <= 100)%Z ->
  fold_left (fun v h => volume_step h v) (repeat VolumeUpClick k) v
  = Z.min (v + 10 * Z.of_nat k) 100.
Proof.
  revert v. induction k as [|k IH]; intros v Hv.
  - cbn. lia.
  - cbn [repeat fold_left volume_step]. rewrite IH by lia. lia.
Qed.

Lemma fold_down_clicks k v :
  (0 <= v)%Z ->
  fold_left (fun v h => volume_step h v) (repeat VolumeDownClick k) v
  = Z.max (v - 10 * Z.of_nat k) 0.
Proof.
  revert v. induction k as [|k IH]; intros v Hv.
  - cbn. lia.
  - cbn [repeat fold_left volume_step]. rewrite IH by lia. lia.
Qed.

(** The click clamps without the range of the claim: one bound each. *)
Lemma clamp_up_one_sided v :
  Int.in_range (v + 10) ->
  (if (100 <? Int.wrap (v + 10))%Z then 100%Z else Int.wrap (v + 10))
  = Z.min (v + 10) 100.
Proof.
  intros Hv. rewrite Int.wrap_small by done.
  destruct (Z.ltb_spec 100 (v + 10)); lia.
Qed.

Lemma clamp_down_one_sided v :
  Int.in_range (v - 10) ->
  (if (Int.wrap (v - 10) <? 0)%Z then 0%Z else Int.wrap (v - 10))
  = Z.max (v - 10) 0.
Proof.
  intros Hv. rewrite Int.wrap_small by done.
  destruct (Z.ltb_spec (v - 10) 0); lia.
Qed.

(** X6: in a running board with the volume in [0, 100], any sequence of
    handlers, called one after the other, returns; the volume it leaves is
    the composition of the handlers' steps (clicks add or subtract 10 and
    clamp, long presses jump to 100 or 0, the boot and touch handlers do
    not touch it), and it is in [0, 100] again. *)
Theorem handlers_compose cfg lang hw hs (w : World) :
  running cfg lang hw w ->
  (0 <= volume_of hw w <= 100)%Z ->
  exists w',
    run_handlers cfg lang hw hs w = Returned tt w' /\
    volume_of hw w'
    = fold_left (fun v h => volume_step h v) hs (volume_of hw w) /\
    (0 <= volume_of hw w' <= 100)%Z.
Proof.
  intros Hr Hrange.
  destruct (handlers_compose_running cfg lang hw hs w Hr Hrange)
    as (w' & Hrun & _ & Hv & Hrange').
  eauto.
Qed.

Lemma handlers_compose_witness :
  exists w',
    run_handlers sample_config lang_spec (failing [] 70)
      [VolumeUpClick; BootClick; VolumeDownLongPress; VolumeUpClick;
       TouchPressDown; VolumeUpClick] (booted 70)
    = Returned tt w' /\
    volume_of (failing [] 70) w'
    = fold_left (fun v h => volume_step h v)
        [VolumeUpClick; BootClick; VolumeDownLongPress; VolumeUpClick;
         TouchPressDown; VolumeUpClick]
        (volume_of (failing [] 70) (booted 70)) /\
    (0 <= volume_of (failing [] 70) w' <= 100)%Z.
Proof.
  apply (handlers_compose sample_config lang_spec (failing [] 70)).
  - apply running_boot. reflexivity.
  - vm_compute. split; discriminate.
Defined.

(** X7: from a volume [v] in [0, 100], [k] clicks of the volume-up button
    leave [min (v + 10 k) 100], and [k] clicks of the volume-down button
    leave [max (v - 10 k) 0]: ten clicks reach the bound from anywhere, and
    further clicks stay there. *)
Theorem repeated_clicks_saturate cfg lang hw k (w : World) :
  running cfg lang hw w ->
  (0 <= volume_of hw w <= 100)%Z ->
  (exists w',
     run_handlers cfg lang hw (repeat VolumeUpClick k) w = Returned tt w' /\
     volume_of hw w' = Z.min (volume_of hw w + 10 * Z.of_nat k) 100 /\
     (10 <= k -> volume_of hw w' = 100%Z)) /\
  (exists w',
     run_handlers cfg lang hw (repeat VolumeDownClick k) w = Returned tt w' /\
     volume_of hw w' = Z.max (volume_of hw w - 10 * Z.of_nat k) 0 /\
     (10 <= k -> volume_of hw w' = 0%Z)).
Proof.
  intros Hr Hrange. split.
  - destruct (handlers_compose_running cfg lang hw (repeat VolumeUpClick k)
                w Hr Hrange) as (w' & Hrun & _ & Hv & _).
    rewrite fold_up_clicks in Hv by lia.
    exists w'. repeat split; try done. intros Hk. lia.
  - destruct (handlers_compose_running cfg lang hw (repeat VolumeDownClick k)
                w Hr Hrange) as (w' & Hrun & _ & Hv & _).
    rewrite fold_down_clicks in Hv by lia.
    exists w'. repeat split; try done. intros Hk. lia.
Qed.

Lemma repeated_clicks_saturate_witness :
  (exists w',
     run_handlers sample_config lang_spec (failing [] 35)
       (repeat VolumeUpClick 4) (booted 35) = Returned tt w' /\
     volume_of (failing [] 35) w'
     = Z.min (volume_of (failing [] 35) (booted 35) + 10 * Z.of_nat 4) 100 /\
     (10 <= 4 -> volume_of (failing [] 35) w' = 100%Z)) /\
  (exists w',
     run_handlers sample_config lang_spec (failing [] 35)
       (repeat VolumeDownClick 4) (booted 35) = Returned tt w' /\
     volume_of (failing [] 35) w'
     = Z.max (volume_of (failing [] 35) (booted 35) - 10 * Z.of_nat 4) 0 /\
     (10 <= 4 -> volume_of (failing [] 35) w' = 0%Z)).
Proof.
  apply (repeated_clicks_saturate sample_config lang_spec (failing [] 35) 4).
  - apply running_boot. reflexivity.
  - vm_compute. split; discriminate.
Defined.

(** X8: from a volume [v] in [0, 100], a volume-up click followed by a
    volume-down click leaves [min v 90], and a volume-down click followed
    by a volume-up click leaves [max v 10]: the two clicks undo each other
    exactly when the first one did not hit its bound. *)
Theorem up_down_round_trip cfg lang hw (w : World) :
  running cfg lang hw w ->
  (0 <= volume_of hw w <= 100)%Z ->
  (exists w',
     run_handlers cfg lang hw [VolumeUpClick; VolumeDownClick] w
     = Returned tt w' /\
     volume_of hw w' = Z.min (volume_of hw w) 90 /\
     (volume_of hw w' = volume_of hw w <-> (volume_of hw w <= 90)%Z)) /\
  (exists w',
     run_handlers cfg lang hw [VolumeDownClick; VolumeUpClick] w
     = Returned tt w' /\
     volume_of hw w' = Z.max (volume_of hw w) 10 /\
     (volume_of hw w' = volume_of hw w <-> (10 <= volume_of hw w)%Z)).
Proof.
  intros Hr Hrange. split.
  - destruct (handlers_compose_running cfg lang hw
                [VolumeUpClick; VolumeDownClick] w Hr Hrange)
      as (w' & Hrun & _ & Hv & _).
    cbn [fold_left volume_step] in Hv.
    exists w'. split; [done|]. split; lia.
  - destruct (handlers_compose_running cfg lang hw
                [VolumeDownClick; VolumeUpClick] w Hr Hrange)
      as (w' & Hrun & _ & Hv & _).
    cbn [fold_left volume_step] in Hv.
    exists w'. split; [done|]. split; lia.
Qed.

Lemma up_down_round_trip_witness :
  (exists w',
     run_handlers sample_config lang_spec (failing [] 95)
       [VolumeUpClick; VolumeDownClick] (booted 95) = Returned tt w' /\
     volume_of (failing [] 95) w'
     = Z.min (volume_of (failing [] 95) (booted 95)) 90 /\
     (volume_of (failing [] 95) w' = volume_of (failing [] 95) (booted 95)
      <-> (volume_of (failing [] 95) (booted 95) <= 90)%Z)) /\
  (exists w',
     run_handlers sample_config lang_spec (failing [] 95)
       [VolumeDownClick; VolumeUpClick] (booted 95) = Returned tt w' /\
     volume_of (failing [] 95) w'
     = Z.max (volume_of (failing [] 95) (booted 95)) 10 /\
     (volume_of (failing [] 95) w' = volume_of (failing [] 95) (booted 95)
      <-> (10 <= volume_of (failing [] 95) (booted 95))%Z)).
Proof.
  apply (up_down_round_trip sample_config lang_spec (failing [] 95)).
  - apply running_boot. reflexivity.
  - vm_compute. split; discriminate.
Defined.

(** X9: the click handlers clamp on one side only.  Whatever the volume
    [v] (short of overflowing an [int]), a volume-up click leaves
    [min (v + 10) 100], which is below 0 when [v < -10]; a volume-down
    click leaves [max (v - 10) 0], which is above 100 when [v > 110]. *)
Theorem click_clamps_one_side cfg lang hw (w : World) :
  running cfg lang hw w ->
  (Int.in_range (volume_of hw w + 10) ->
   exists w',
     run_handler cfg lang hw VolumeUpClick w = Returned tt w' /\
     volume_of hw w' = Z.min (volume_of hw w + 10) 100 /\
     ((volume_of hw w < -10)%Z -> (volume_of hw w' < 0)%Z)) /\
  (Int.in_range (volume_of hw w - 10) ->
   exists w',
     run_handler cfg lang hw VolumeDownClick w = Returned tt w' /\
     volume_of hw w' = Z.max (volume_of hw w - 10) 0 /\
     ((110 < volume_of hw w)%Z -> (100 < volume_of hw w')%Z)).
Proof.
  intros Hr.
  destruct (running_inv _ _ _ _ Hr) as [(n & d & Hp & Hd) _].
  split; intros Hfit.
  - destruct (read_set_and_show cfg hw w n d
      (fun v => if (100 <? Int.wrap (v + 10))%Z then 100%Z
                else Int.wrap (v + 10))
      (fun v' => VOLUME lang +:+ Int.to_string v') Hp Hd)
      as (w' & Hrun & Hv & _).
    cbn beta in Hv. rewrite (clamp_up_one_sided _ Hfit) in Hv.
    exists w'. split; [exact Hrun|]. split; [done|]. lia.
  - destruct (read_set_and_show cfg hw w n d
      (fun v => if (Int.wrap (v - 10) <? 0)%Z then 0%Z
                else Int.wrap (v - 10))
      (fun v' => VOLUME lang +:+ Int.to_string v') Hp Hd)
      as (w' & Hrun & Hv & _).
    cbn beta in Hv. rewrite (clamp_down_one_sided _ Hfit) in Hv.
    exists w'. split; [exact Hrun|]. split; [done|]. lia.
Qed.

Lemma click_clamps_one_side_witness :
  exists w',
    run_handler sample_config lang_spec (failing [] (-50)) VolumeUpClick
      (booted (-50)) = Returned tt w' /\
    volume_of (failing [] (-50)) w'
    = Z.min (volume_of (failing [] (-50)) (booted (-50)) + 10) 100 /\
    ((volume_of (failing [] (-50)) (booted (-50)) < -10)%Z ->
     (volume_of (failing [] (-50)) w' < 0)%Z).
Proof.
  assert (Hr : running sample_config lang_spec (failing [] (-50))
                 (booted (-50))).
  { apply running_boot. reflexivity. }
  apply (proj1 (click_clamps_one_side sample_config lang_spec
                  (failing [] (-50)) (booted (-50)) Hr)).
  vm_compute. split; [discriminate | reflexivity].
Defined.

(** X10: a running board keeps, for its whole life, what the constructor
    set up: no handler constructs the LED, allocates or frees a display,
    or changes [display_] or a handle; the codec is constructed at most
    once, on the first volume event, and is of the class the build
    selected. *)
Theorem board_lifetime cfg lang hw (w0 w : World) :
  CompactMl307Board cfg hw process_start = Returned tt w0 ->
  running cfg lang hw w ->
  lifetime cfg w0 w.
Proof.
  intros Hb. induction 1 as [w Hb' | w b e w' Hr IH Hf].
  - assert (w = w0) as -> by congruence. exact (boot_lifetime cfg hw w0 Hb).
  - pose proof (running_inv _ _ _ _ Hr) as Hinv.
    rewrite (fire_wired _ _ _ _ _ _ Hinv) in Hf.
    destruct (wired b e) as [h|]; [|by injection Hf as <-].
    destruct Hinv as [(n & d & Hp & Hd) _].
    destruct (run_handler_frame cfg lang hw h w n d Hp Hd)
      as (w1 & acts & Hrun & Ht & Hled & Hdisp & Hdom & Hbus & Hio & Hpanel
          & Hnoled & Hnonew & Hcodec).
    assert (w' = w1) as -> by congruence.
    destruct IH as [Il Id Ic Ib Iio Ip Ik Io In Iw].
    split; try congruence.
    + intros c Hc. destruct (is_volume_handler h).
      * destruct Hcodec as (c' & Hc' & Hk & _).
        assert (c = c') as -> by congruence. rewrite Hk.
        destruct (audio_codec w) as [c0|] eqn:Hc0; [by apply Ik | done].
      * destruct Hcodec as (Hsame & _). apply Ik. congruence.
    + rewrite Ht, count_actions_app, Io. destruct (is_volume_handler h).
      * destruct Hcodec as (c' & -> & _ & ->). by destruct (audio_codec w).
      * destruct Hcodec as (-> & _ & c & ->). cbn. lia.
    + rewrite Ht, count_actions_app, In, Hnoled. done.
    + rewrite Ht, count_actions_app, Iw, Hnonew. done.
Qed.

Lemma board_lifetime_witness :
  lifetime sample_config (booted 70)
    (world_of (run_handlers sample_config lang_spec (failing [] 70)
                 [VolumeUpClick; VolumeDownLongPress] (booted 70))).
Proof.
  apply (board_lifetime sample_config lang_spec (failing [] 70)).
  - reflexivity.
  - apply (run_handler_running _ _ _ VolumeDownLongPress
             (world_of (run_handler sample_config lang_spec (failing [] 70)
                          VolumeUpClick (booted 70)))).
    + apply (run_handler_running _ _ _ VolumeUpClick (booted 70)).
      * apply running_boot. reflexivity.
      * vm_compute. reflexivity.
    + vm_compute. reflexivity.
Defined.

Lemma wired_table_lookup b e : wired_table !! (b, e) = wired b e.
Proof. destruct b, e; reflexivity. Qed.

(** X11: in every world of a running board the handler sets are exactly
    the seven entries [InitializeButtons] stored: no event adds, replaces
    or removes a handler, and the other nine slots (a press-down on a
    volume button, a long press of the boot button, ...) stay empty. *)
Theorem handler_sets_fixed cfg lang hw (w : World) :
  running cfg lang hw w ->
  handlers w = wired_table /\
  size (handlers w) = 7 /\
  forall b e, handlers w !! (b, e) = wired b e.
Proof.
  intros Hr. destruct (running_inv _ _ _ _ Hr) as [_ Hh].
  assert (Heq : handlers w = wired_table).
  { apply map_eq. intros [b e]. by rewrite Hh, wired_table_lookup. }
  split; [done|]. split; [|done]. rewrite Heq. reflexivity.
Qed.

Lemma handler_sets_fixed_witness :
  handlers (booted 70) = wired_table /\
  size (handlers (booted 70)) = 7 /\
  forall b e, handlers (booted 70) !! (b, e) = wired b e.
Proof.
  apply (handler_sets_fixed sample_config lang_spec (failing [] 70)).
  apply running_boot. reflexivity.
Defined.

(* ===================================================================== *)
(** ** More of the interleaved click handlers *)
(* ===================================================================== *)

Lemma pc_ready_mono (w w' : World) pc :
  (is_Some (audio_codec w) -> is_Some (audio_codec w')) ->
  pc_ready w pc -> pc_ready w' pc.
Proof. intros Hm. destruct pc; cbn; [done| |done]. intuition. Qed.

(** One statement of one activity keeps the invariant of the schedule. *)
Lemma schedule_step_inv cfg lang hw s a (w : World) :
  schedule_inv hw a w ->
  exists a' w',
    schedule_step cfg lang hw s a w = Returned a' w' /\
    schedule_inv hw a' w'.
Proof.
  intros ((n & d & Hp & Hd) & Hrange & Hup & Hdown).
  assert (Hu := clamp_up _ Hrange). assert (Hdn := clamp_down _ Hrange).
  assert (Hur : (0 <= Z.min (volume_of hw w + 10) 100 <= 100)%Z) by lia.
  assert (Hdr : (0 <= Z.max (volume_of hw w - 10) 0 <= 100)%Z) by lia.
  unfold volume_of in Hu, Hdn, Hur, Hdr, Hrange.
  destruct a as [pu pd]; cbn [up_pc down_pc] in *.
  destruct s; [destruct pu as [|codec v|v] | destruct pd as [|codec v|v]].
  all: cbn [pc_ready] in *.
  all: try (destruct Hup as (-> & [c Hc] & Hv)).
  all: try (destruct Hdown as (-> & [c Hc] & Hv)).
  all: unfold schedule_step, statement, schedule_inv, volume_of; unfold_handler;
    cbn [up_pc down_pc].
  all: try (destruct (audio_codec w) as [c|] eqn:Hc).
  all: repeat (cbn; rewrite ?Hc, ?Hp, ?Hd, ?Hu, ?Hdn).
  all: eexists _, _; (split; [reflexivity|]); cbn.
  all: rewrite ?Hc, ?lookup_insert_eq; cbn.
  all: repeat split; eauto; try lia.
  all: try (eapply pc_ready_mono; [|eassumption]; cbn; rewrite ?Hc; eauto).
  all: exists n; eexists; split; [done|]; apply lookup_insert_eq.
Qed.

(** X12: starting from a running board with the volume in [0, 100] and
    both activities before their first statement, every schedule of the
    two click handlers runs without a fault or an abort, however the
    statements interleave, and leaves the volume in [0, 100]: an update
    can be lost, but the range cannot be left. *)
Theorem interleaved_clicks_stay_in_range cfg lang hw schedule (w : World) :
  running cfg lang hw w ->
  (0 <= volume_of hw w <= 100)%Z ->
  exists a' w',
    run_schedule cfg lang hw schedule both_ready w = Returned a' w' /\
    (0 <= volume_of hw w' <= 100)%Z.
Proof.
  intros Hr Hrange.
  assert (Hinv : schedule_inv hw both_ready w).
  { destruct (running_inv _ _ _ _ Hr) as [Hdisp _].
    split; [exact Hdisp|]. split; [exact Hrange|]. split; exact I. }
  clear Hr Hrange. revert w Hinv. generalize both_ready as a.
  induction schedule as [|s schedule IH]; intros a w Hinv.
  - exists a, w. split; [done|]. apply Hinv.
  - destruct (schedule_step_inv cfg lang hw s a w Hinv) as (a1 & w1 & Hs & Hinv1).
    destruct (IH a1 w1 Hinv1) as (a' & w' & Hrun & Hrange').
    exists a', w'. cbn [run_schedule]. unfold bind at 1. by rewrite Hs.
Qed.

Lemma interleaved_clicks_stay_in_range_witness :
  exists a' w',
    run_schedule sample_config lang_spec (failing [] 95)
      [Up; Down; Up; Up; Down; Up; Down; Down; Up] both_ready (booted 95)
    = Returned a' w' /\
    (0 <= volume_of (failing [] 95) w' <= 100)%Z.
Proof.
  apply (interleaved_clicks_stay_in_range sample_config lang_spec
           (failing [] 95)).
  - apply running_boot. reflexivity.
  - vm_compute. split; discriminate.
Defined.

